(** * PyRTS: the coefficient model and the sph stream reader of pyrts/model.py

    A shallow embedding of the class [PyRTS] and proofs about its
    constructor and about [read_sph_stream].

    Python objects are mutable and exceptions leave the mutations made so
    far in place, so the methods are written in a state-and-exception monad
    over the object: a computation takes [self] and returns either a raised
    exception or a value, together with [self] as it is at that moment. *)

From Stdlib Require Import ZArith Lia ZifyNat Bool Ascii String PrimFloat Uint63.
From stdpp Require Import base tactics option list strings.

Set Warnings "-inexact-float".
Set Default Proof Using "Type".


(** ** Text: the two [str] methods the reader uses *)

(** [str.isspace] on one ASCII character: tab, line feed, vertical tab, form
    feed, carriage return, the four separators 28..31 and the space. *)
Definition isspace (c : ascii) : bool :=
  let n := nat_of_ascii c in
  ((9 <=? n) && (n <=? 13)) || ((28 <=? n) && (n <=? 32)).

(** [s.split()] with no argument: the maximal runs of non-space characters.
    [cur] is the token being read. *)
Fixpoint split_from (cur : string) (s : string) : list string :=
  match s with
  | EmptyString => match cur with EmptyString => [] | _ => [cur] end
  | String c s' =>
      if isspace c
      then match cur with
           | EmptyString => split_from EmptyString s'
           | _ => cur :: split_from EmptyString s'
           end
      else split_from (cur +:+ String c EmptyString) s'
  end.

Definition str_split (s : string) : list string := split_from EmptyString s.

(** [s.count(c)] for a one-character [c]. *)
Fixpoint str_count (s : string) (c : ascii) : nat :=
  match s with
  | EmptyString => 0
  | String x s' => (if Ascii.eqb x c then 1 else 0) + str_count s' c
  end.

(** A physical line of a text file: its text and the line feed. *)
Definition newline : string := String (ascii_of_nat 10) EmptyString.
Definition text_line (s : string) : string := s +:+ newline.

(** ** The coefficient array

    [np.zeros((n0, n1, n2, n3))] is a C-contiguous block of doubles: the
    entry [i, c, l, m] sits at offset [((i*n1 + c)*n2 + l)*n3 + m]. An index
    outside the shape is numpy's IndexError, here [None]. The reader only
    ever indexes with non-negative integers. *)
Record ndarray := mk_ndarray {
  dim0 : nat; dim1 : nat; dim2 : nat; dim3 : nat;
  data : list float
}.

Definition nd_size (a : ndarray) : nat := dim0 a * dim1 a * dim2 a * dim3 a.

Definition nd_offset (a : ndarray) (i c l m : nat) : nat :=
  ((i * dim1 a + c) * dim2 a + l) * dim3 a + m.

Definition in_bounds (a : ndarray) (i c l m : nat) : bool :=
  (i <? dim0 a) && (c <? dim1 a) && (l <? dim2 a) && (m <? dim3 a).

Definition np_zeros (n0 n1 n2 n3 : nat) : ndarray :=
  mk_ndarray n0 n1 n2 n3 (replicate (n0 * n1 * n2 * n3) 0%float).

Definition nd_getitem (a : ndarray) (i c l m : nat) : option float :=
  if in_bounds a i c l m then data a !! nd_offset a i c l m else None.

Definition nd_setitem (a : ndarray) (i c l m : nat) (v : float) : option ndarray :=
  if in_bounds a i c l m
  then Some (mk_ndarray (dim0 a) (dim1 a) (dim2 a) (dim3 a)
               (<[nd_offset a i c l m := v]> (data a)))
  else None.

(** The block holds exactly one double per index. *)
Definition nd_valid (a : ndarray) : bool := length (data a) =? nd_size a.

(** ** The object *)

Definition DEFAULT_KNOTS : list float :=
  [1.00000;  0.96512;  0.92675;  0.88454;  0.83810;  0.78701;
   0.73081;  0.66899;  0.60097;  0.52615;  0.44384;  0.35329;
   0.25367;  0.14409;  0.02353; -0.010909; -0.25499; -0.41550;
  -0.59207; -0.78631; -1.00000]%float.

(** The attributes of a [PyRTS] object. [None] in [degree] and [coefs] is
    Python's [None]; the radii are [None] until the constructor has stored
    them. *)
Record PyRTS := mk_PyRTS {
  knots : list float;
  degree : option Z;
  coefs : option ndarray;
  inner_radius : option float;
  outer_radius : option float
}.

Definition with_degree (d : option Z) (self : PyRTS) : PyRTS :=
  mk_PyRTS (knots self) d (coefs self) (inner_radius self) (outer_radius self).
Definition with_coefs (a : option ndarray) (self : PyRTS) : PyRTS :=
  mk_PyRTS (knots self) (degree self) a (inner_radius self) (outer_radius self).
Definition with_radii (r_in r_out : float) (self : PyRTS) : PyRTS :=
  mk_PyRTS (knots self) (degree self) (coefs self) (Some r_in) (Some r_out).

(** ** Exceptions and the method monad *)

Inductive exn :=
  | AssertionError (msg : string)
  | IndexError
  | ValueError
  | TypeError.

Definition M (A : Type) : Type := PyRTS → (exn + A) * PyRTS.

#[global] Instance M_ret : MRet M := λ A x self, (inr x, self).
#[global] Instance M_bind : MBind M := λ A B f m self,
  match m self with
  | (inr x, self') => f x self'
  | (inl e, self') => (inl e, self')
  end.

Definition raise {A} (e : exn) : M A := λ self, (inl e, self).
Definition get_self : M PyRTS := λ self, (inr self, self).
Definition modify (f : PyRTS → PyRTS) : M unit := λ self, (inr tt, f self).

(** [assert b, msg] *)
Definition py_assert (b : bool) (msg : string) : M unit :=
  if b then mret tt else raise (AssertionError msg).

(** [xs[i]] on a Python list, for a non-negative [i]. *)
Definition list_getitem {A} (xs : list A) (i : nat) : M A :=
  match xs !! i with
  | Some x => mret x
  | None => raise IndexError
  end.

(** A builtin conversion ([int], [float]) that raises ValueError on text it
    does not accept. *)
Definition convert {A} (conv : string → option A) (s : string) : M A :=
  match conv s with
  | Some v => mret v
  | None => raise ValueError
  end.

(** Unfolds the monad operations, the compound ones first. *)
Ltac unfold_M :=
  unfold py_assert, list_getitem, convert, get_self, modify, raise in *;
  unfold mbind, M_bind, mret, M_ret in *.

(** [self.coefs[i, c, l, m] = v]: TypeError when [coefs] is [None]. *)
Definition coefs_setitem (i c l m : nat) (v : float) : M unit := λ self,
  match coefs self with
  | None => (inl TypeError, self)
  | Some a =>
      match nd_setitem a i c l m v with
      | Some a' => (inr tt, with_coefs (Some a') self)
      | None => (inl IndexError, self)
      end
  end.

(** [PyRTS._allocate_coefs]. [None + 1] is a TypeError, and [np.zeros]
    refuses a negative dimension with a ValueError. *)
Definition _allocate_coefs : M unit :=
  self ← get_self;
  match degree self with
  | None => raise TypeError
  | Some d =>
      if (d + 1 <? 0)%Z then raise ValueError
      else modify (with_coefs (Some
             (np_zeros (length (knots self)) 2 (Z.to_nat (d + 1)) (Z.to_nat (d + 1)))))
  end.

(** ** Decimal numerals

    Python's [int] and [float] are builtins; the reader is defined and
    verified for every pair of conversions (section [Reader]). The two
    conversions below cover plain decimal numerals and serve to run the
    reader on concrete streams. [float_of_decimal] accepts
    [sign digits . digits] when the digits form an integer below [2^53] with
    at most 18 of them after the point: mantissa and power of ten then fit
    a 63-bit integer and are exact doubles, and the one rounded division
    gives the nearest double, the value Python's [float] returns for that
    text. *)
Definition digit_of (c : ascii) : option Z :=
  let n := nat_of_ascii c in
  if (48 <=? n) && (n <=? 57) then Some (Z.of_nat (n - 48)) else None.

(** The digits of [s] appended to the numeral [acc]; [None] on a non-digit. *)
Fixpoint digits_from (acc : Z) (s : string) : option Z :=
  match s with
  | EmptyString => Some acc
  | String c s' =>
      match digit_of c with
      | Some d => digits_from (10 * acc + d)%Z s'
      | None => None
      end
  end.

Definition unsigned_decimal (s : string) : option Z :=
  match s with
  | EmptyString => None
  | _ => digits_from 0 s
  end.

Definition int_of_decimal (s : string) : option Z :=
  match s with
  | String "-" s' => Z.opp <$> unsigned_decimal s'
  | String "+" s' => unsigned_decimal s'
  | _ => unsigned_decimal s
  end.

(** The text before the first point, and the text after it if there is one. *)
Fixpoint cut_at_point (s : string) : string * option string :=
  match s with
  | EmptyString => (EmptyString, None)
  | String "." s' => (EmptyString, Some s')
  | String c s' => let '(a, b) := cut_at_point s' in (String c a, b)
  end.

Definition unsigned_float (s : string) : option float :=
  let '(ip, fp) := cut_at_point s in
  let fp := default EmptyString fp in
  match ip +:+ fp with
  | EmptyString => None
  | ds =>
      match digits_from 0 ds with
      | Some mant =>
          if (mant <? 2 ^ 53)%Z && (String.length fp <=? 18)
          then Some (PrimFloat.div (of_uint63 (Uint63.of_Z mant))
                       (of_uint63 (Uint63.of_Z (10 ^ Z.of_nat (String.length fp)))))
          else None
      | None => None
      end
  end.

Definition float_of_decimal (s : string) : option float :=
  match s with
  | String "-" s' => PrimFloat.opp <$> unsigned_float s'
  | String "+" s' => unsigned_float s'
  | _ => unsigned_float s
  end.

(** ** Streams and objects to run the reader on *)

(** The end-to-end stream: the header [1 11 21 1...1] (21 ones), then for
    each of the 21 knots a line with the group of degree 0 and a line with
    the group of degree 1. *)
Definition scenario_header : string := text_line "1 11 21 111111111111111111111".
Definition scenario_knot : list string :=
  [text_line "0.5"; text_line "0.1 0.2 0.3"].
Definition scenario_stream : list string :=
  scenario_header :: concat (replicate 21 scenario_knot).

(** The same stream without its very last token. *)
Definition truncated_stream : list string :=
  scenario_header :: concat (replicate 20 scenario_knot)
    ++ [text_line "0.5"; text_line "0.1 0.2"].

(** The object the constructor makes from [degree=1] alone. *)
Definition scenario_model : PyRTS :=
  mk_PyRTS DEFAULT_KNOTS (Some 1%Z) (Some (np_zeros 21 2 2 2))
    (Some 3480.0%float) (Some 6346.691%float).

(** An object with two knots and degree 1, as the constructor makes it from
    [degree=1, knots=[1.0, -1.0]], the same before degree and array are
    set, and streams for them: the body one group per line, the same tokens
    one per line, and the same tokens with the two groups of the first knot
    on one line. *)
Definition two_knots : PyRTS :=
  mk_PyRTS [1.0; -1.0]%float (Some 1%Z) (Some (np_zeros 2 2 2 2))
    (Some 3480.0%float) (Some 6346.691%float).
Definition two_knots_unset : PyRTS :=
  mk_PyRTS [1.0; -1.0]%float None None None None.
Definition two_knots_header : string := text_line "1 11 2 11".
Definition two_knots_body : list string :=
  [text_line "0.5"; text_line "0.1 0.2 0.3"; text_line "0.5"; text_line "0.1 0.2 0.3"].
Definition two_knots_stream : list string := two_knots_header :: two_knots_body.
Definition two_knots_body_fine : list string :=
  text_line <$> ["0.5"; "0.1"; "0.2"; "0.3"; "0.5"; "0.1"; "0.2"; "0.3"].
Definition two_knots_body_merged : list string :=
  [text_line "0.5 0.1 0.2 0.3"; text_line "0.5"; text_line "0.1 0.2 0.3"].

(** ** The reader *)

(** The local variables of [read_sph_stream] that live across iterations of
    its [for line in fileobj] loop. *)
Record locals := mk_locals {
  header : option (list string);
  dataline : list string;
  ri : nat;
  li : nat
}.

Section Reader.

(** The builtins [int] and [float] on text: [None] is ValueError. *)
Variable py_int : string → option Z.
Variable py_float : string → option float.

(** [header is None] branch of the loop body (lines 110-122); returns the
    new value of [header]. *)
Definition read_header (line : string) : M (list string) :=
  let header := str_split line in
  t0 ← list_getitem header 0;
  degree_in_file ← convert py_int t0;
  t1 ← list_getitem header 1;
  let used_degrees_in_file := str_count t1 "1" in
  self ← get_self;
  match degree self with
  | Some d =>
      py_assert (Z.of_nat used_degrees_in_file - 1 =? d)%Z
        "Wrong number of 1s in SH header"
  | None => mret tt
  end;;
  t2 ← list_getitem header 2;
  knots_in_file ← convert py_int t2;
  t3 ← list_getitem header 3;
  let used_knots_in_file := str_count t3 "1" in
  py_assert (length (knots self) =? used_knots_in_file)
    "Wrong number of 1s in knots header";;
  match coefs self with
  | None =>
      modify (with_degree (Some (Z.of_nat used_degrees_in_file - 1)%Z));;
      _allocate_coefs
  | Some _ => mret tt
  end;;
  mret header.

(** [for m, coef in enumerate(dataline)] (lines 132-144), from position
    [m] with the running order index [mi]. The right-hand side
    [float(coef)] is evaluated before the store. *)
Fixpoint decode (ri li : nat) (m mi : nat) (dataline : list string) : M unit :=
  match dataline with
  | [] => mret tt
  | coef :: rest =>
      if m =? 0 then
        v ← convert py_float coef;
        coefs_setitem ri 0 li mi v;;
        decode ri li (S m) (mi + 1) rest
      else if m mod 2 =? 1 then
        v ← convert py_float coef;
        coefs_setitem ri 0 li mi v;;
        decode ri li (S m) mi rest
      else
        v ← convert py_float coef;
        coefs_setitem ri 1 li mi v;;
        decode ri li (S m) (mi + 1) rest
  end.

(** [else] branch of the loop body (lines 125-152) once the line is split
    into [tokens]. [li > self.degree] is a TypeError on [None]. *)
Definition data_step (loc : locals) (tokens : list string) : M locals :=
  let extended := dataline loc ++ tokens in
  loc' ← (if length extended =? li loc * 2 + 1 then
            self ← get_self;
            py_assert (ri loc <=? length (knots self)) "Too many lines!";;
            decode (ri loc) (li loc) 0 0 extended;;
            self ← get_self;
            let li := li loc + 1 in
            match degree self with
            | None => raise TypeError
            | Some d =>
                if (d <? Z.of_nat li)%Z
                then mret (mk_locals (header loc) [] (ri loc + 1) 0)
                else mret (mk_locals (header loc) [] (ri loc) li)
            end
          else mret (mk_locals (header loc) extended (ri loc) (li loc)));
  py_assert (length (dataline loc') <? li loc' * 2 + 1) "Too much data";;
  mret loc'.

(** One iteration of [for line in fileobj]. *)
Definition loop_body (loc : locals) (line : string) : M locals :=
  match header loc with
  | None =>
      h ← read_header line;
      mret (mk_locals (Some h) (dataline loc) (ri loc) (li loc))
  | Some _ => data_step loc (str_split line)
  end.

Fixpoint run_lines (loc : locals) (fileobj : list string) : M locals :=
  match fileobj with
  | [] => mret loc
  | line :: rest => loc' ← loop_body loc line; run_lines loc' rest
  end.

Definition initial_locals : locals := mk_locals None [] 0 0.

(** [PyRTS.read_sph_stream]; [fileobj] is the sequence of lines the file
    object yields. *)
Definition read_sph_stream (fileobj : list string) : M unit :=
  run_lines initial_locals fileobj;; mret tt.

(** [PyRTS.read_sph_file]; the file system is not modelled, [filename]
    stands for the lines of the file it names. *)
Definition read_sph_file (filename : list string) : M unit :=
  read_sph_stream filename.

(** The defaults of [inner_radius] and [outer_radius]. *)
Definition default_inner_radius : float := 3480.0%float.
Definition default_outer_radius : float := 6346.691%float.

(** [PyRTS.__init__]: the outcome and the object as the constructor left
    it. *)
Definition __init__ (filename : option (list string)) (degree : option Z)
    (knots : option (list float)) (inner_radius outer_radius : float)
    : (exn + unit) * PyRTS :=
  let self := mk_PyRTS (default DEFAULT_KNOTS knots) None None None None in
  (match degree with
   | Some d => modify (with_degree (Some d));; _allocate_coefs
   | None => modify (with_degree None);; modify (with_coefs None)
   end;;
   match filename with
   | Some f => read_sph_file f
   | None => mret tt
   end;;
   self ← get_self;
   py_assert (bool_decide (is_Some (coefs self)))
     "You must provide a filename or degree";;
   modify (with_radii inner_radius outer_radius)) self.

(** ** Notions used by the statements *)

(** Closed forms of the loop's bookkeeping: the array component and the
    order index that position [m] of a group is stored at. *)
Definition token_component (m : nat) : nat :=
  if m =? 0 then 0 else if m mod 2 =? 1 then 0 else 1.
Definition token_order (m : nat) : nat := (m + 1) / 2.

(** The shape invariant of the class: an allocated array is a full block
    of shape [(len(knots), 2, degree+1, degree+1)]. *)
Definition shape_ok (self : PyRTS) : bool :=
  match coefs self with
  | None => true
  | Some a =>
      match degree self with
      | None => false
      | Some d =>
          nd_valid a && (dim0 a =? length (knots self)) && (dim1 a =? 2)
          && (dim2 a =? Z.to_nat (d + 1)) && (dim3 a =? Z.to_nat (d + 1))
      end
  end.

(** [self'] is [self] with some entries of the array stored anew; only
    the entries whose index satisfies [P] may read differently. *)
Definition stores_within (P : nat → nat → nat → nat → Prop) (self self' : PyRTS)
    : Prop :=
  knots self' = knots self ∧ degree self' = degree self ∧
  inner_radius self' = inner_radius self ∧ outer_radius self' = outer_radius self ∧
  match coefs self with
  | None => coefs self' = None
  | Some a => ∃ a',
      coefs self' = Some a' ∧
      dim0 a' = dim0 a ∧ dim1 a' = dim1 a ∧ dim2 a' = dim2 a ∧ dim3 a' = dim3 a ∧
      nd_valid a' = nd_valid a ∧
      ∀ i c l m, ¬ P i c l m → nd_getitem a' i c l m = nd_getitem a i c l m
  end.

(** The indexes the positions [from .. from+n-1] of the group [(ri, li)]
    are stored at. *)
Definition group_index (ri li from n : nat) (i c l m : nat) : Prop :=
  ∃ k, from ≤ k < from + n ∧ i = ri ∧ c = token_component k ∧ l = li
       ∧ m = token_order k.

(** The loop invariant on the pending buffer (the assertion of line 152). *)
Definition pending_ok (loc : locals) : bool :=
  length (dataline loc) <? li loc * 2 + 1.

(** The locals after the group [(ri, li)] is complete (lines 146-150),
    for the degree [d] of the object. *)
Definition advance (loc : locals) (d : Z) : locals :=
  if (d <? Z.of_nat (li loc + 1))%Z
  then mk_locals (header loc) [] (ri loc + 1) 0
  else mk_locals (header loc) [] (ri loc) (li loc + 1).

(** The data branch run on each token as a line of its own: the finest
    way to break a token sequence into lines. *)
Fixpoint feed_tokens (loc : locals) (tokens : list string) : M locals :=
  match tokens with
  | [] => mret loc
  | tok :: rest => loc' ← data_step loc [tok]; feed_tokens loc' rest
  end.

(** The object the header branch leaves when it allocates for [n] ones
    in the degree bit string. *)
Definition allocated (n : nat) (self : PyRTS) : PyRTS :=
  with_coefs (Some (np_zeros (length (knots self)) 2 n n))
    (with_degree (Some (Z.of_nat n - 1)%Z) self).

(** The two assertion failures of the header branch: the header does not
    fit the shape of the object. *)
Definition shape_mismatch (e : exn) : Prop :=
  e = AssertionError "Wrong number of 1s in SH header" ∨
  e = AssertionError "Wrong number of 1s in knots header".

(** A computation raises on [self]. *)
Definition raises {A} (m : M A) (self : PyRTS) : Prop :=
  ∃ e self', m self = (inl e, self').

(** The object with another knot table, and a computation that only
    ever looks at the length of the knot table and never stores to it:
    on an object with another table of the same length it does the same
    and leaves that other table in place. *)
Definition with_knots (ks : list float) (self : PyRTS) : PyRTS :=
  mk_PyRTS ks (degree self) (coefs self) (inner_radius self) (outer_radius self).

Definition knots_blind {A} (m : M A) : Prop :=
  ∀ ks self, length ks = length (knots self) →
    m (with_knots ks self) = ((m self).1, with_knots ks (m self).2) ∧
    knots (m self).2 = knots self.

(** A whitespace-only line. *)
Definition blank (line : string) : Prop := str_split line = [].

(** The indexes a group can be stored at: at or below the diagonal, and not
    the imaginary part of order 0. *)
Definition storable (i c l m : nat) : Prop := m ≤ l ∧ (c = 0 ∨ 1 ≤ m).

(** The exceptions of the reader proper: a failed index or conversion, a
    header that does not fit, a line that overruns its group. *)
Definition reader_error (e : exn) : Prop :=
  e = IndexError ∨ e = ValueError ∨ shape_mismatch e ∨
  e = AssertionError "Too much data".

(** * Proofs *)

(** ** The array *)

Lemma mixed_radix_lt (a b A B : nat) : a < A → b < B → a * B + b < A * B.
Proof.
  intros Ha Hb. assert (S a * B ≤ A * B) by (apply Nat.mul_le_mono_r; lia).
  simpl in *. lia.
Qed.

Lemma mixed_radix_inj (a b a' b' B : nat) :
  b < B → b' < B → a * B + b = a' * B + b' → a = a' ∧ b = b'.
Proof.
  intros Hb Hb' E.
  assert (a = a') as ->; [|lia].
  destruct (Nat.lt_trichotomy a a') as [Hlt|[->|Hlt]]; [|done|].
  - assert (S a * B ≤ a' * B) by (apply Nat.mul_le_mono_r; lia). simpl in *. lia.
  - assert (S a' * B ≤ a * B) by (apply Nat.mul_le_mono_r; lia). simpl in *. lia.
Qed.

Lemma in_bounds_spec a i c l m :
  in_bounds a i c l m = true ↔ i < dim0 a ∧ c < dim1 a ∧ l < dim2 a ∧ m < dim3 a.
Proof.
  unfold in_bounds. rewrite !andb_true_iff, !Nat.ltb_lt. tauto.
Qed.

Lemma nd_offset_lt a i c l m :
  in_bounds a i c l m = true → nd_offset a i c l m < nd_size a.
Proof.
  rewrite in_bounds_spec. intros (Hi & Hc & Hl & Hm).
  unfold nd_offset, nd_size.
  auto using mixed_radix_lt.
Qed.

Lemma nd_offset_inj a i c l m i' c' l' m' :
  in_bounds a i c l m = true → in_bounds a i' c' l' m' = true →
  nd_offset a i c l m = nd_offset a i' c' l' m' →
  i = i' ∧ c = c' ∧ l = l' ∧ m = m'.
Proof.
  rewrite !in_bounds_spec. intros (Hi & Hc & Hl & Hm) (Hi' & Hc' & Hl' & Hm').
  unfold nd_offset. intros E.
  apply mixed_radix_inj in E as [E ->]; [|done..].
  apply mixed_radix_inj in E as [E ->]; [|done..].
  apply mixed_radix_inj in E as [-> ->]; done.
Qed.

Lemma nd_getitem_zeros n0 n1 n2 n3 i c l m :
  in_bounds (np_zeros n0 n1 n2 n3) i c l m = true →
  nd_getitem (np_zeros n0 n1 n2 n3) i c l m = Some 0%float.
Proof.
  intros Hb. unfold nd_getitem. rewrite Hb.
  apply lookup_replicate_2. exact (nd_offset_lt _ _ _ _ _ Hb).
Qed.

Lemma nd_valid_zeros n0 n1 n2 n3 : nd_valid (np_zeros n0 n1 n2 n3) = true.
Proof.
  unfold nd_valid, nd_size. simpl. rewrite length_replicate. apply Nat.eqb_refl.
Qed.

Lemma nd_getitem_is_Some a i c l m :
  nd_valid a = true → in_bounds a i c l m = true → is_Some (nd_getitem a i c l m).
Proof.
  unfold nd_valid, nd_getitem. rewrite Nat.eqb_eq. intros Hv Hb. rewrite Hb.
  apply lookup_lt_is_Some. rewrite Hv. by apply nd_offset_lt.
Qed.

(** What a store changes: the shape stays, the block stays full, the entry
    stored reads back, every other entry reads as before. *)
Lemma nd_setitem_Some a i c l m v :
  in_bounds a i c l m = true → is_Some (nd_setitem a i c l m v).
Proof. intros Hb. unfold nd_setitem. rewrite Hb. eauto. Qed.

Lemma nd_setitem_bounds a a' i c l m v :
  nd_setitem a i c l m v = Some a' → in_bounds a i c l m = true.
Proof. unfold nd_setitem. by destruct (in_bounds a i c l m). Qed.

Lemma nd_setitem_dims a a' i c l m v :
  nd_setitem a i c l m v = Some a' →
  dim0 a' = dim0 a ∧ dim1 a' = dim1 a ∧ dim2 a' = dim2 a ∧ dim3 a' = dim3 a.
Proof.
  unfold nd_setitem. destruct (in_bounds a i c l m); [|done].
  by intros [= <-].
Qed.

Lemma nd_setitem_in_bounds a a' i c l m v i' c' l' m' :
  nd_setitem a i c l m v = Some a' →
  in_bounds a' i' c' l' m' = in_bounds a i' c' l' m'.
Proof.
  intros (E0 & E1 & E2 & E3)%nd_setitem_dims. unfold in_bounds. by rewrite E0, E1, E2, E3.
Qed.

Lemma nd_setitem_valid a a' i c l m v :
  nd_setitem a i c l m v = Some a' → nd_valid a' = nd_valid a.
Proof.
  unfold nd_setitem. destruct (in_bounds a i c l m); [|done].
  intros [= <-]. unfold nd_valid, nd_size. simpl. by rewrite length_insert.
Qed.

Lemma nd_getitem_setitem_eq a a' i c l m v :
  nd_valid a = true → nd_setitem a i c l m v = Some a' →
  nd_getitem a' i c l m = Some v.
Proof.
  intros Hv Hs. pose proof (nd_setitem_bounds _ _ _ _ _ _ _ Hs) as Hb.
  unfold nd_getitem. rewrite (nd_setitem_in_bounds _ _ _ _ _ _ _ _ _ _ _ Hs), Hb.
  revert Hs. unfold nd_setitem. rewrite Hb. intros [= <-]. simpl.
  apply list_lookup_insert_eq.
  apply Nat.eqb_eq in Hv. rewrite Hv. by apply nd_offset_lt.
Qed.

Lemma nd_getitem_setitem_ne a a' i c l m v i' c' l' m' :
  nd_setitem a i c l m v = Some a' →
  (i', c', l', m') ≠ (i, c, l, m) →
  nd_getitem a' i' c' l' m' = nd_getitem a i' c' l' m'.
Proof.
  intros Hs Hne. pose proof (nd_setitem_bounds _ _ _ _ _ _ _ Hs) as Hb.
  unfold nd_getitem. rewrite (nd_setitem_in_bounds _ _ _ _ _ _ _ _ _ _ _ Hs).
  destruct (in_bounds a i' c' l' m') eqn:Hb'; [|done].
  revert Hs. unfold nd_setitem. rewrite Hb. intros [= <-]. simpl.
  apply list_lookup_insert_ne. intros E.
  apply nd_offset_inj in E as (-> & -> & -> & ->); done.
Qed.

(** ** The monad *)

Lemma bind_inr {A B} (m : M A) (f : A → M B) self x self' :
  m self = (inr x, self') → (m ≫= f) self = f x self'.
Proof. intros E. unfold mbind, M_bind. by rewrite E. Qed.

Lemma bind_inl {A B} (m : M A) (f : A → M B) self e self' :
  m self = (inl e, self') → (m ≫= f) self = (inl e, self').
Proof. intros E. unfold mbind, M_bind. by rewrite E. Qed.

Lemma bind_inv_inr {A B} (m : M A) (f : A → M B) self y self'' :
  (m ≫= f) self = (inr y, self'') →
  ∃ x self', m self = (inr x, self') ∧ f x self' = (inr y, self'').
Proof.
  unfold mbind, M_bind. destruct (m self) as [[e|x] self']; [done|]. eauto.
Qed.

Lemma bind_inv {A B} (m : M A) (f : A → M B) self r self'' :
  (m ≫= f) self = (r, self'') →
  (∃ e, m self = (inl e, self'') ∧ r = inl e) ∨
  (∃ x self', m self = (inr x, self') ∧ f x self' = (r, self'')).
Proof.
  unfold mbind, M_bind. destruct (m self) as [[e|x] self'].
  - intros [= <- <-]. eauto.
  - eauto.
Qed.

Lemma bind_assoc {A B C} (m : M A) (f : A → M B) (g : B → M C) self :
  ((m ≫= f) ≫= g) self = (m ≫= λ x, f x ≫= g) self.
Proof. unfold mbind, M_bind. by destruct (m self) as [[e|x] self']. Qed.


(** ** Stores *)

Lemma stores_within_refl P self : stores_within P self self.
Proof.
  unfold stores_within. repeat split. destruct (coefs self) as [a|]; eauto 10.
Qed.

Lemma stores_within_trans P s1 s2 s3 :
  stores_within P s1 s2 → stores_within P s2 s3 → stores_within P s1 s3.
Proof.
  unfold stores_within.
  intros (K1 & D1 & I1 & O1 & C1) (K2 & D2 & I2 & O2 & C2).
  repeat split; try congruence.
  destruct (coefs s1) as [a|].
  - destruct C1 as (a' & E' & ? & ? & ? & ? & ? & F1). rewrite E' in C2.
    destruct C2 as (a'' & E'' & ? & ? & ? & ? & ? & F2).
    exists a''. repeat split; try congruence.
    intros i c l m HP. rewrite F2, F1; done.
  - by rewrite C1 in C2.
Qed.

Lemma stores_within_mono (P Q : nat → nat → nat → nat → Prop) s1 s2 :
  (∀ i c l m, P i c l m → Q i c l m) →
  stores_within P s1 s2 → stores_within Q s1 s2.
Proof.
  unfold stores_within. intros HPQ (? & ? & ? & ? & C). repeat split; try done.
  destruct (coefs s1) as [a|]; [|done].
  destruct C as (a' & ? & ? & ? & ? & ? & ? & F). exists a'. repeat split; try done.
  intros i c l m HQ. apply F. naive_solver.
Qed.

Lemma coefs_setitem_stores i c l m v self r self' :
  coefs_setitem i c l m v self = (r, self') →
  stores_within (λ i' c' l' m', (i', c', l', m') = (i, c, l, m)) self self'.
Proof.
  unfold coefs_setitem. destruct (coefs self) as [a|] eqn:Ea.
  - destruct (nd_setitem a i c l m v) as [a'|] eqn:Es; intros [= <- <-].
    + unfold stores_within. simpl. repeat split; try done. rewrite Ea.
      destruct (nd_setitem_dims _ _ _ _ _ _ _ Es) as (? & ? & ? & ?).
      exists a'. repeat split; try done.
      * by eapply nd_setitem_valid.
      * intros. by eapply nd_getitem_setitem_ne.
    + apply stores_within_refl.
  - intros [= <- <-]. apply stores_within_refl.
Qed.

Lemma shape_ok_stores P self self' :
  stores_within P self self' → shape_ok self = true → shape_ok self' = true.
Proof.
  unfold stores_within, shape_ok. intros (K & D & _ & _ & C).
  destruct (coefs self) as [a|].
  - destruct C as (a' & -> & -> & -> & -> & -> & -> & _). by rewrite K, D.
  - by rewrite C.
Qed.
(** ** Decoding one group

    From here on every statement is about the reader and holds for any
    [int] and [float]. *)
Set Default Proof Using "py_int py_float".

Lemma token_order_S m :
  token_order (S m) = if (m =? 0) || negb (m mod 2 =? 1) then token_order m + 1
                      else token_order m.
Proof.
  unfold token_order.
  destruct (m =? 0) eqn:E0; [apply Nat.eqb_eq in E0 as ->; done|].
  destruct (m mod 2 =? 1) eqn:E1; cbn [orb negb].
  - apply Nat.eqb_eq in E1. lia.
  - apply Nat.eqb_neq in E1. lia.
Qed.

(** One iteration of the loop, with the running index in closed form. *)
Lemma decode_cons ri li m tok rest self :
  decode ri li m (token_order m) (tok :: rest) self =
  (v ← convert py_float tok;
   coefs_setitem ri (token_component m) li (token_order m) v;;
   decode ri li (S m) (token_order (S m)) rest) self.
Proof.
  cbn [decode]. rewrite token_order_S. unfold token_component.
  destruct (m =? 0); [done|]. by destruct (m mod 2 =? 1).
Qed.

Lemma token_index_inj k k' :
  token_component k = token_component k' → token_order k = token_order k' → k = k'.
Proof.
  unfold token_component, token_order.
  destruct (k =? 0) eqn:E0, (k' =? 0) eqn:E0';
    destruct (k mod 2 =? 1) eqn:E1, (k' mod 2 =? 1) eqn:E1';
    rewrite ?Nat.eqb_eq, ?Nat.eqb_neq in *; try done; lia.
Qed.

Lemma convert_inv {A} (conv : string → option A) s self r self' :
  convert conv s self = (r, self') →
  self' = self ∧ (r = inl ValueError ∧ conv s = None ∨ ∃ v, r = inr v ∧ conv s = Some v).
Proof.
  unfold convert. destruct (conv s) as [v|]; intros [= <- <-]; eauto.
Qed.

(** Whatever its outcome, decoding only stores at the indexes of the
    positions it was given. *)
Lemma decode_stores ri li toks : ∀ m self r self',
  decode ri li m (token_order m) toks self = (r, self') →
  stores_within (group_index ri li m (length toks)) self self'.
Proof.
  induction toks as [|tok rest IH]; intros m self r self'.
  - intros [= <- <-]. apply stores_within_refl.
  - rewrite decode_cons. intros H.
    apply bind_inv in H as [(e & H & ->)|(v & s1 & H & H')].
    { apply convert_inv in H as [-> _]. apply stores_within_refl. }
    apply convert_inv in H as [-> _].
    apply bind_inv in H' as [(e & H & ->)|([] & s2 & H & H')].
    + apply coefs_setitem_stores in H. eapply stores_within_mono; [|done].
      intros i c l m' [= -> -> -> ->]. exists m. simpl. repeat split; lia.
    + apply coefs_setitem_stores in H. apply IH in H'.
      eapply stores_within_trans.
      * eapply stores_within_mono; [|exact H].
        intros i c l m' [= -> -> -> ->]. exists m. simpl. repeat split; lia.
      * eapply stores_within_mono; [|exact H'].
        intros i c l m' (k & Hk & ?). exists k. simpl. split; [lia|done].
Qed.

(** After a successful decoding every token has been converted and sits at
    the index of its position. *)
Lemma decode_values ri li toks : ∀ m self self' a,
  decode ri li m (token_order m) toks self = (inr tt, self') →
  coefs self = Some a → nd_valid a = true →
  ∃ a', coefs self' = Some a' ∧
    ∀ k tok, toks !! k = Some tok →
      ∃ v, py_float tok = Some v ∧
        nd_getitem a' ri (token_component (m + k)) li (token_order (m + k)) = Some v.
Proof.
  induction toks as [|tok rest IH]; intros m self self' a.
  - intros [= <-] Ea _. exists a. split; [done|]. by intros k tok'.
  - rewrite decode_cons. intros H Ea Hv.
    apply bind_inv_inr in H as (v & s1 & H & H').
    apply convert_inv in H as [-> [[? _]|(? & [= <-] & Hf)]]; [done|].
    apply bind_inv_inr in H' as ([] & s2 & H & H').
    pose proof H as Hs. unfold coefs_setitem in Hs. rewrite Ea in Hs.
    destruct (nd_setitem a ri (token_component m) li (token_order m) v)
      as [a1|] eqn:Es; [|done].
    injection Hs as <-.
    pose proof (decode_stores _ _ _ _ _ _ _ H') as (_ & _ & _ & _ & Hst).
    simpl in Hst. destruct Hst as (a' & Ea' & _ & _ & _ & _ & _ & Hfr).
    destruct (IH (S m) _ _ a1 H' eq_refl) as (a'' & Ea'' & Hvals).
    { by rewrite (nd_setitem_valid _ _ _ _ _ _ _ Es). }
    rewrite Ea' in Ea''. injection Ea'' as <-.
    exists a'. split; [done|]. intros [|k] tok' Hk; simpl in Hk.
    + injection Hk as <-. exists v. split; [done|].
      rewrite Nat.add_0_r, Hfr; [by eapply nd_getitem_setitem_eq|].
      intros (k & Hk & _ & Hc & _ & Ho).
      apply token_index_inj in Hc; [lia|done].
    + replace (m + S k) with (S m + k) by lia. by apply Hvals.
Qed.

(** Decoding succeeds when every token converts and every position has an
    index inside the array. *)
Lemma decode_succeeds ri li toks : ∀ m self a,
  coefs self = Some a →
  (∀ k, k < length toks →
     in_bounds a ri (token_component (m + k)) li (token_order (m + k)) = true) →
  Forall (λ tok, is_Some (py_float tok)) toks →
  ∃ self', decode ri li m (token_order m) toks self = (inr tt, self').
Proof.
  induction toks as [|tok rest IH]; intros m self a Ea Hb Hf.
  - by exists self.
  - apply Forall_cons in Hf as [[v Hv] Hf].
    pose proof (Hb 0 ltac:(simpl; lia)) as Hb0. rewrite Nat.add_0_r in Hb0.
    destruct (nd_setitem_Some a _ _ _ _ v Hb0) as [a1 Es].
    destruct (IH (S m) (with_coefs (Some a1) self) a1 eq_refl) as [self' H']; [|done|].
    { intros k Hk. rewrite (nd_setitem_in_bounds _ _ _ _ _ _ _ _ _ _ _ Es).
      replace (S m + k) with (m + S k) by lia. apply Hb. simpl. lia. }
    exists self'. rewrite decode_cons.
    erewrite bind_inr; [|unfold convert; by rewrite Hv].
    erewrite bind_inr; [exact H'|]. unfold coefs_setitem. by rewrite Ea, Es.
Qed.

(** ** The header line *)

(** The object once the reader has taken the degree from the header. *)
Lemma allocate_after_header (n : nat) self :
  (modify (with_degree (Some (Z.of_nat n - 1)%Z));; _allocate_coefs) self =
  (inr tt, with_coefs (Some (np_zeros (length (knots self)) 2 n n))
             (with_degree (Some (Z.of_nat n - 1)%Z) self)).
Proof.
  unfold _allocate_coefs. unfold_M. simpl.
  replace (Z.of_nat n - 1 + 1)%Z with (Z.of_nat n) by lia.
  destruct (Z.ltb_spec (Z.of_nat n) 0); [lia|]. by rewrite Nat2Z.id.
Qed.

(** The header branch on a line of at least four tokens whose first and
    third token are integers. *)
Lemma read_header_tokens line t0 t1 t2 t3 more n0 n2 self :
  str_split line = t0 :: t1 :: t2 :: t3 :: more →
  py_int t0 = Some n0 → py_int t2 = Some n2 →
  read_header line self =
    if match degree self with
       | Some d => negb (Z.of_nat (str_count t1 "1") - 1 =? d)%Z
       | None => false
       end
    then (inl (AssertionError "Wrong number of 1s in SH header"), self)
    else if negb (length (knots self) =? str_count t3 "1")
    then (inl (AssertionError "Wrong number of 1s in knots header"), self)
    else (inr (t0 :: t1 :: t2 :: t3 :: more),
          match coefs self with
          | None =>
              with_coefs (Some (np_zeros (length (knots self)) 2
                                  (str_count t1 "1") (str_count t1 "1")))
                (with_degree (Some (Z.of_nat (str_count t1 "1") - 1)%Z) self)
          | Some _ => self
          end).
Proof.
  intros Hs H0 H2. unfold read_header. rewrite Hs.
  pose proof (allocate_after_header (str_count t1 "1") self) as Ha.
  unfold_M. simpl. rewrite H0, H2.
  destruct (degree self) as [d|]; simpl.
  - destruct (Z.of_nat (str_count t1 "1") - 1 =? d)%Z; simpl; [|done].
    destruct (length (knots self) =? str_count t3 "1"); simpl; [|done].
    destruct (coefs self); [done|]. by rewrite Ha.
  - destruct (length (knots self) =? str_count t3 "1"); simpl; [|done].
    destruct (coefs self); [done|]. by rewrite Ha.
Qed.

(** [header[0]] on a blank line. *)
Lemma read_header_blank line self :
  blank line → read_header line self = (inl IndexError, self).
Proof. unfold blank, read_header. by intros ->. Qed.

(** Whatever the line, the header branch either raises and leaves the
    object alone, or returns the tokens of the line and leaves an allocated
    array: the one the object had, or a fresh zero array for the degree it
    has just set. *)
Lemma read_header_inv line self r self' :
  read_header line self = (r, self') →
  (∃ e, r = inl e ∧ self' = self) ∨
  r = inr (str_split line) ∧
    ((∃ a, coefs self = Some a ∧ self' = self) ∨
     (coefs self = None ∧ ∃ n, self' = allocated n self)).
Proof.
  intros H.
  destruct (str_split line) as [|t0 [|t1 [|t2 [|t3 more]]]] eqn:Hs.
  1-4: left; unfold read_header in H; rewrite Hs in H; unfold_M; simpl in H;
    repeat case_match; simplify_eq; eauto.
  destruct (py_int t0) as [n0|] eqn:H0;
    [|left; unfold read_header in H; rewrite Hs in H; unfold_M; simpl in H;
      rewrite H0 in H; simplify_eq; eauto].
  destruct (py_int t2) as [n2|] eqn:H2;
    [|left; unfold read_header in H; rewrite Hs in H; unfold_M; simpl in H;
      rewrite H0, H2 in H; repeat case_match; simplify_eq; eauto].
  rewrite (read_header_tokens _ _ _ _ _ _ _ _ self Hs H0 H2) in H.
  repeat case_match; simplify_eq; eauto 10.
Qed.

Lemma read_header_effect line self r self' :
  read_header line self = (r, self') →
  self' = self ∨
  coefs self = None ∧ ∃ h n, r = inr h ∧
    self' = with_coefs (Some (np_zeros (length (knots self)) 2 n n))
              (with_degree (Some (Z.of_nat n - 1)%Z) self).
Proof.
  intros [(e & -> & ->)|[-> [(a & _ & ->)|(Hn & n & ->)]]]%read_header_inv;
    [by left..|].
  right. split; [done|]. by eexists _, n.
Qed.

(** ** One data line *)

(** The buffer stays short of the group: the tokens are kept for later. *)
Lemma data_step_pending loc toks self :
  length (dataline loc ++ toks) < li loc * 2 + 1 →
  data_step loc toks self =
    (inr (mk_locals (header loc) (dataline loc ++ toks) (ri loc) (li loc)), self).
Proof.
  intros Hlt. unfold data_step.
  destruct (Nat.eqb_spec (length (dataline loc ++ toks)) (li loc * 2 + 1)); [lia|].
  unfold_M. simpl.
  destruct (Nat.ltb_spec (length (dataline loc ++ toks)) (li loc * 2 + 1)); [done|lia].
Qed.

(** The buffer has grown past the group. *)
Lemma data_step_overrun loc toks self :
  li loc * 2 + 1 < length (dataline loc ++ toks) →
  data_step loc toks self = (inl (AssertionError "Too much data"), self).
Proof.
  intros Hlt. unfold data_step.
  destruct (Nat.eqb_spec (length (dataline loc ++ toks)) (li loc * 2 + 1)); [lia|].
  unfold_M. simpl.
  destruct (Nat.ltb_spec (length (dataline loc ++ toks)) (li loc * 2 + 1)); [lia|done].
Qed.

(** The buffer holds exactly the group: it is decoded, and the outcome of
    the line is the outcome of the decoding. *)
Lemma data_step_complete loc toks self :
  length (dataline loc ++ toks) = li loc * 2 + 1 →
  ri loc ≤ length (knots self) →
  data_step loc toks self =
    match decode (ri loc) (li loc) 0 0 (dataline loc ++ toks) self with
    | (inl e, self') => (inl e, self')
    | (inr _, self') =>
        match degree self' with
        | None => (inl TypeError, self')
        | Some d => (inr (advance loc d), self')
        end
    end.
Proof.
  intros Hlen Hri. unfold data_step, advance. rewrite Hlen, Nat.eqb_refl.
  apply Nat.leb_le in Hri. unfold_M. rewrite Hri. simpl.
  destruct (decode _ _ _ _ _ self) as [[e|[]] self']; [done|].
  destruct (degree self') as [d|]; [|done].
  destruct (d <? Z.of_nat (li loc + 1))%Z; simpl; [done|].
  by replace (li loc + 1) with (S (li loc)) by lia.
Qed.

Lemma data_step_too_many_lines loc toks self :
  length (dataline loc ++ toks) = li loc * 2 + 1 →
  length (knots self) < ri loc →
  data_step loc toks self = (inl (AssertionError "Too many lines!"), self).
Proof.
  intros Hlen Hri. unfold data_step. rewrite Hlen, Nat.eqb_refl.
  apply Nat.leb_gt in Hri. unfold_M. by rewrite Hri.
Qed.

Lemma advance_pending_ok loc d : pending_ok (advance loc d) = true.
Proof.
  unfold advance, pending_ok. destruct (d <? _)%Z; simpl; [done|].
  apply Nat.ltb_lt. lia.
Qed.

Lemma advance_header loc d : header (advance loc d) = header loc.
Proof. unfold advance. by destruct (d <? _)%Z. Qed.

(** The three cases of a data line. *)
Lemma data_step_cases loc toks self :
  (length (dataline loc ++ toks) < li loc * 2 + 1) ∨
  (li loc * 2 + 1 < length (dataline loc ++ toks)) ∨
  (length (dataline loc ++ toks) = li loc * 2 + 1 ∧ length (knots self) < ri loc) ∨
  (length (dataline loc ++ toks) = li loc * 2 + 1 ∧ ri loc ≤ length (knots self)).
Proof. lia. Qed.

(** The indexes of a group all have their order at or below the degree. *)
Lemma group_index_lower ri li i c l m :
  group_index ri li 0 (li * 2 + 1) i c l m → m ≤ l.
Proof.
  intros (k & Hk & -> & -> & -> & ->). unfold token_order. lia.
Qed.

(** A data line, whatever its outcome, only stores at indexes with
    [order ≤ degree]. *)
Lemma data_step_stores loc toks self r self' :
  data_step loc toks self = (r, self') →
  stores_within (λ i c l m, m ≤ l) self self'.
Proof.
  destruct (data_step_cases loc toks self) as [H|[H|[[H1 H2]|[H1 H2]]]].
  - rewrite data_step_pending by done. intros [= <- <-]. apply stores_within_refl.
  - rewrite data_step_overrun by done. intros [= <- <-]. apply stores_within_refl.
  - rewrite data_step_too_many_lines by done. intros [= <- <-].
    apply stores_within_refl.
  - rewrite data_step_complete by done.
    destruct (decode _ _ _ _ _ self) as [r' s'] eqn:Hd.
    change 0 with (token_order 0) in Hd at 2. apply decode_stores in Hd.
    rewrite H1 in Hd.
    assert (stores_within (λ i c l m, m ≤ l) self s') as Hst.
    { eapply stores_within_mono; [|exact Hd]. intros. by eapply group_index_lower. }
    destruct r' as [e|[]]; [by intros [= <- <-]|].
    destruct (degree s'); by intros [= <- <-].
Qed.

(** A data line that succeeds leaves the buffer short of the next group
    and keeps [header]. *)
Lemma data_step_ok loc toks self loc' self' :
  data_step loc toks self = (inr loc', self') →
  pending_ok loc' = true ∧ header loc' = header loc.
Proof.
  destruct (data_step_cases loc toks self) as [H|[H|[[H1 H2]|[H1 H2]]]].
  - rewrite data_step_pending by done. intros [= <- <-].
    unfold pending_ok. simpl. split; [|done]. by apply Nat.ltb_lt.
  - by rewrite data_step_overrun.
  - by rewrite data_step_too_many_lines.
  - rewrite data_step_complete by done.
    destruct (decode _ _ _ _ _ self) as [[e|[]] s']; [done|].
    destruct (degree s'); [|done]. intros [= <- <-].
    auto using advance_pending_ok, advance_header.
Qed.

(** ** The loop *)

Lemma run_lines_app lines1 : ∀ loc lines2 self,
  run_lines loc (lines1 ++ lines2) self =
  (run_lines loc lines1 ≫= λ loc', run_lines loc' lines2) self.
Proof.
  induction lines1 as [|line lines1 IH]; intros loc lines2 self; [done|].
  simpl. unfold mbind, M_bind.
  destruct (loop_body loc line self) as [[e|loc1] s1]; [done|]. apply IH.
Qed.

(** The first line of a stream goes to the header branch, the rest to the
    data branch. *)
Lemma run_lines_first line rest self :
  run_lines initial_locals (line :: rest) self =
  (h ← read_header line; run_lines (mk_locals (Some h) [] 0 0) rest) self.
Proof. simpl. unfold loop_body. simpl. by rewrite bind_assoc. Qed.

Lemma loop_body_data loc line self :
  header loc ≠ None → loop_body loc line self = data_step loc (str_split line) self.
Proof. unfold loop_body. by destruct (header loc). Qed.

(** Once the header is read, the lines only store at indexes with
    [order ≤ degree]; on success the buffer is short of the next group. *)
Lemma run_data_lines_stores lines : ∀ loc self r self',
  header loc ≠ None →
  run_lines loc lines self = (r, self') →
  stores_within (λ i c l m, m ≤ l) self self'.
Proof.
  induction lines as [|line lines IH]; intros loc self r self' Hh.
  - intros [= <- <-]. apply stores_within_refl.
  - simpl. intros [(e & H & ->)|(loc1 & s1 & H & H')]%bind_inv;
      rewrite loop_body_data in H by done.
    + by eapply data_step_stores.
    + eapply stores_within_trans; [by eapply data_step_stores|].
      eapply IH; [|done]. apply data_step_ok in H as [_ ->]. done.
Qed.

Lemma run_data_lines_ok lines : ∀ loc self loc' self',
  header loc ≠ None → pending_ok loc = true →
  run_lines loc lines self = (inr loc', self') →
  pending_ok loc' = true ∧ header loc' = header loc.
Proof.
  induction lines as [|line lines IH]; intros loc self loc' self' Hh Hp.
  - by intros [= <- <-].
  - simpl. intros (loc1 & s1 & H & H')%bind_inv_inr.
    rewrite loop_body_data in H by done. apply data_step_ok in H as [Hp1 Hh1].
    apply IH in H' as [? ?]; [|congruence|done]. split; congruence.
Qed.

(** What a run of the whole loop can do to the object: store into the
    array it had, or into the zero array the header allocated. *)
Lemma run_lines_effect lines self r self' :
  run_lines initial_locals lines self = (r, self') →
  stores_within (λ i c l m, m ≤ l) self self' ∨
  coefs self = None ∧ ∃ n, stores_within (λ i c l m, m ≤ l) (allocated n self) self'.
Proof.
  destruct lines as [|line rest].
  { intros [= <- <-]. left. apply stores_within_refl. }
  rewrite run_lines_first.
  intros [(e & H & ->)|(h & s1 & H & H')]%bind_inv.
  - apply read_header_effect in H as [->|(_ & ? & ? & ? & _)]; [|done].
    left. apply stores_within_refl.
  - apply run_data_lines_stores in H'; [|done].
    apply read_header_effect in H as [->|(Hc & h' & n & _ & ->)]; [by left|].
    right. split; [done|]. by exists n.
Qed.

(** ** Line breaks *)

Lemma data_step_locals loc loc1 toks self :
  header loc1 = header loc → ri loc1 = ri loc → li loc1 = li loc →
  dataline loc1 ++ toks = dataline loc ++ toks →
  data_step loc1 toks self = data_step loc toks self.
Proof. intros Hh Hr Hl Hd. unfold data_step. by rewrite Hh, Hr, Hl, Hd. Qed.

Lemma data_step_shift loc tok toks self :
  data_step (mk_locals (header loc) (dataline loc ++ [tok]) (ri loc) (li loc)) toks self
  = data_step loc (tok :: toks) self.
Proof. unfold data_step. simpl. by rewrite <- app_assoc. Qed.

(** A line that the data branch accepts could as well have come one token
    per line. *)
Lemma data_step_as_tokens toks : ∀ loc self loc' self',
  pending_ok loc = true →
  data_step loc toks self = (inr loc', self') →
  feed_tokens loc toks self = (inr loc', self').
Proof.
  induction toks as [|tok rest IH]; intros loc self loc' self' Hp.
  - apply Nat.ltb_lt in Hp. rewrite data_step_pending by (rewrite app_nil_r; done).
    rewrite app_nil_r. by destruct loc.
  - intros H. apply Nat.ltb_lt in Hp.
    destruct (decide (length (dataline loc ++ [tok]) < li loc * 2 + 1)) as [Hlt|Hge].
    + simpl. erewrite bind_inr; [|by apply data_step_pending].
      apply IH; [by apply Nat.ltb_lt|]. by rewrite data_step_shift.
    + rewrite length_app in Hge. simpl in Hge.
      destruct rest as [|tok' rest].
      * simpl. by erewrite bind_inr.
      * rewrite data_step_overrun in H; [done|].
        rewrite length_app. simpl. lia.
Qed.

Lemma feed_tokens_app toks1 : ∀ loc toks2 self,
  feed_tokens loc (toks1 ++ toks2) self =
  (feed_tokens loc toks1 ≫= λ loc', feed_tokens loc' toks2) self.
Proof.
  induction toks1 as [|tok toks1 IH]; intros loc toks2 self; [done|].
  simpl. unfold mbind, M_bind.
  destruct (data_step loc [tok] self) as [[e|loc1] s1]; [done|]. apply IH.
Qed.

(** Data lines that are all accepted could as well have come one token
    per line. *)
Lemma run_data_lines_as_tokens lines : ∀ loc self loc' self',
  header loc ≠ None → pending_ok loc = true →
  run_lines loc lines self = (inr loc', self') →
  feed_tokens loc (concat (str_split <$> lines)) self = (inr loc', self').
Proof.
  induction lines as [|line lines IH]; intros loc self loc' self' Hh Hp; [done|].
  simpl. intros (loc1 & s1 & H & H')%bind_inv_inr.
  rewrite loop_body_data in H by done.
  destruct (data_step_ok _ _ _ _ _ H) as [Hp1 Hh1].
  rewrite feed_tokens_app. erewrite bind_inr; [|by apply data_step_as_tokens].
  apply IH; [congruence|done..].
Qed.

(** ** The header: decoding and reconciliation *)

Lemma read_sph_stream_first line rest self :
  read_sph_stream (line :: rest) self =
  (h ← read_header line; run_lines (mk_locals (Some h) [] 0 0) rest;; mret tt) self.
Proof.
  unfold read_sph_stream. unfold mbind at 1, M_bind at 1.
  rewrite run_lines_first. unfold mbind, M_bind.
  by destruct (read_header line self) as [[e|h] s1].
Qed.

(** A header branch that succeeds returns the tokens of its line and leaves
    an allocated array. *)
Lemma read_header_ok line self h self' :
  read_header line self = (inr h, self') →
  h = str_split line ∧ is_Some (coefs self').
Proof.
  intros [(e & ? & _)|[[= ->] [(a & Ha & ->)|(Hn & n & ->)]]]%read_header_inv;
    [done|split; [done|]..].
  - rewrite Ha. eauto.
  - simpl. eauto.
Qed.

(** C3. Header reconciliation: on a header line of four tokens (an integer,
    a bit string, an integer, a bit string), if the number of ones in the
    fourth token differs from [len(knots)], or the degree of the object is
    set and differs from the number of ones in the second token minus one,
    [read_sph_stream] raises one of the two shape-mismatch assertion errors
    while it processes that line, and the object is exactly as it was: no
    coefficient is written, the array and the knot table are untouched. *)
Theorem C3_header_mismatch_raises line rest t0 t1 t2 t3 more n0 n2 self :
  str_split line = t0 :: t1 :: t2 :: t3 :: more →
  py_int t0 = Some n0 → py_int t2 = Some n2 →
  (length (knots self) ≠ str_count t3 "1" ∨
   ∃ d, degree self = Some d ∧ d ≠ (Z.of_nat (str_count t1 "1") - 1)%Z) →
  ∃ e, shape_mismatch e ∧ read_sph_stream (line :: rest) self = (inl e, self).
Proof.
  intros Hs H0 H2 Hmis. rewrite read_sph_stream_first.
  pose proof (read_header_tokens _ _ _ _ _ _ _ _ self Hs H0 H2) as Hh.
  unfold shape_mismatch.
  destruct (degree self) as [d|] eqn:Ed.
  - destruct (Z.eqb_spec (Z.of_nat (str_count t1 "1") - 1) d) as [Heq|Hne];
      simpl in Hh.
    + destruct (Nat.eqb_spec (length (knots self)) (str_count t3 "1")) as [Hk|Hk];
        simpl in Hh.
      * destruct Hmis as [?|(d' & [= <-] & ?)]; congruence.
      * eexists. split; [by right|]. by erewrite bind_inl.
    + eexists. split; [by left|]. by erewrite bind_inl.
  - destruct (Nat.eqb_spec (length (knots self)) (str_count t3 "1")) as [Hk|Hk];
      simpl in Hh.
    + destruct Hmis as [?|(d' & ? & ?)]; congruence.
    + eexists. split; [by right|]. by erewrite bind_inl.
Qed.

(** C5. Header decoding: on a header line of four tokens whose first and
    third are integers, the reader compares the number of ones in the second
    token, minus one, with the degree of the object when that is set, and
    the number of ones in the fourth token with [len(knots)]; when the object
    has neither degree nor array, the header branch succeeds exactly when the
    knot counts agree, and then sets [degree] to that number minus one and
    allocates the zero array of shape [(len(knots), 2, degree+1, degree+1)]. *)
Theorem C5_header_decoding line t0 t1 t2 t3 n0 n2 self :
  str_split line = [t0; t1; t2; t3] →
  py_int t0 = Some n0 → py_int t2 = Some n2 →
  let used_degree := (Z.of_nat (str_count t1 "1") - 1)%Z in
  let used_knots := str_count t3 "1" in
  (degree self = None → coefs self = None → length (knots self) = used_knots →
     read_header line self =
       (inr [t0; t1; t2; t3],
        with_coefs (Some (np_zeros (length (knots self)) 2
                            (Z.to_nat (used_degree + 1)) (Z.to_nat (used_degree + 1))))
          (with_degree (Some used_degree) self))) ∧
  (∀ d, degree self = Some d →
     (∃ h self', read_header line self = (inr h, self')) ↔
     used_degree = d ∧ used_knots = length (knots self)) ∧
  (degree self = None →
     (∃ h self', read_header line self = (inr h, self')) ↔
     used_knots = length (knots self)).
Proof.
  intros Hs H0 H2 used_degree used_knots.
  pose proof (read_header_tokens _ _ _ _ _ _ _ _ self Hs H0 H2) as Hh.
  fold used_knots in Hh. fold used_degree in Hh.
  split; [|split].
  - intros Ed Ec Hk. rewrite Hh, Ed, Ec, Hk, Nat.eqb_refl. simpl.
    subst used_degree.
    replace (Z.of_nat (str_count t1 "1") - 1 + 1)%Z
      with (Z.of_nat (str_count t1 "1")) by lia.
    by rewrite Nat2Z.id.
  - intros d Ed. rewrite Hh, Ed.
    destruct (Z.eqb_spec used_degree d) as [Heq|Hne]; simpl.
    + destruct (Nat.eqb_spec (length (knots self)) used_knots) as [Hk|Hk]; simpl.
      * split; [done|]. eauto.
      * split; [intros (? & ? & ?); done|]. intros [_ ?]. congruence.
    + split; [intros (? & ? & ?); done|]. intros [? _]. congruence.
  - intros Ed. rewrite Hh, Ed.
    destruct (Nat.eqb_spec (length (knots self)) used_knots) as [Hk|Hk]; simpl.
    + split; [done|]. eauto.
    + split; [intros (? & ? & ?); done|]. congruence.
Qed.

(** C9, as the code has it. The header is taken from the first line of the
    stream, blank or not: a successful run has the tokens of the first line
    as its header, and a blank (whitespace-only) first line is not skipped
    but makes the reader raise IndexError with the object untouched. *)
Theorem C9_header_is_first_line line rest self :
  (∀ loc self', run_lines initial_locals (line :: rest) self = (inr loc, self') →
     header loc = Some (str_split line)) ∧
  (blank line → read_sph_stream (line :: rest) self = (inl IndexError, self)).
Proof.
  split.
  - intros loc self'. rewrite run_lines_first.
    intros (h & s1 & H & H')%bind_inv_inr.
    apply read_header_ok in H as [-> _].
    apply run_data_lines_ok in H' as [_ ->]; done.
  - intros Hb. rewrite read_sph_stream_first.
    erewrite bind_inl; [done|]. by apply read_header_blank.
Qed.

(** ** Groups: overrun and completion *)

Lemma shape_ok_spec self a :
  shape_ok self = true → coefs self = Some a →
  ∃ d, degree self = Some d ∧ nd_valid a = true ∧ dim0 a = length (knots self) ∧
       dim1 a = 2 ∧ dim2 a = Z.to_nat (d + 1) ∧ dim3 a = Z.to_nat (d + 1).
Proof.
  unfold shape_ok. intros H Ha. rewrite Ha in H.
  destruct (degree self) as [d|]; [|done].
  exists d. rewrite !andb_true_iff, !Nat.eqb_eq in H.
  destruct H as ((((? & ?) & ?) & ?) & ?). done.
Qed.

Lemma token_component_lt k : token_component k < 2.
Proof.
  unfold token_component. destruct (k =? 0); [lia|]. destruct (k mod 2 =? 1); lia.
Qed.

(** Every position of a group of an existing knot and degree has its index
    inside the array. *)
Lemma group_in_bounds self a d ri li k :
  shape_ok self = true → coefs self = Some a → degree self = Some d →
  ri < length (knots self) → (Z.of_nat li ≤ d)%Z → k < li * 2 + 1 →
  in_bounds a ri (token_component k) li (token_order k) = true.
Proof.
  intros Hok Ha Hd Hri Hli Hk.
  destruct (shape_ok_spec _ _ Hok Ha) as (d' & Hd' & _ & E0 & E1 & E2 & E3).
  assert (d' = d) as -> by congruence.
  apply in_bounds_spec. rewrite E0, E1, E2, E3.
  pose proof (token_component_lt k). unfold token_order. lia.
Qed.

(** C4. A data line that takes the pending buffer of the group [(ri, li)]
    past [2*li+1] tokens fails with the assertion error "Too much data",
    at the step and in the run of a whole stream; a line that takes the
    buffer to exactly [2*li+1] numeric tokens, for an existing knot and
    degree, is decoded without error: the step returns the advanced locals
    with an empty buffer and the object that the decoding loop produced,
    in which token [m] of the buffer is what [coefs[ri, c, li, (m+1)/2]]
    holds ([c] = 0 for [m] = 0 or odd, 1 for even [m > 0]), and in which
    nothing outside the group [(ri, li)] of the array has changed. *)
Theorem C4_overrun_and_completion :
  (∀ loc toks self,
     li loc * 2 + 1 < length (dataline loc ++ toks) →
     data_step loc toks self = (inl (AssertionError "Too much data"), self)) ∧
  (∀ pre line rest self loc self1,
     run_lines initial_locals pre self = (inr loc, self1) →
     header loc ≠ None →
     li loc * 2 + 1 < length (dataline loc ++ str_split line) →
     read_sph_stream (pre ++ line :: rest) self =
       (inl (AssertionError "Too much data"), self1)) ∧
  (∀ loc toks self a d,
     length (dataline loc ++ toks) = li loc * 2 + 1 →
     shape_ok self = true → coefs self = Some a → degree self = Some d →
     ri loc < length (knots self) → (Z.of_nat (li loc) ≤ d)%Z →
     Forall (λ tok, is_Some (py_float tok)) (dataline loc ++ toks) →
     ∃ self' a',
       decode (ri loc) (li loc) 0 0 (dataline loc ++ toks) self = (inr tt, self') ∧
       data_step loc toks self = (inr (advance loc d), self') ∧
       dataline (advance loc d) = [] ∧
       coefs self' = Some a' ∧
       (∀ m tok, (dataline loc ++ toks) !! m = Some tok →
          is_Some (py_float tok) ∧
          nd_getitem a' (ri loc) (token_component m) (li loc) (token_order m)
          = py_float tok) ∧
       stores_within (λ i c l m, i = ri loc ∧ l = li loc) self self').
Proof.
  split; [|split].
  - intros loc toks self. apply data_step_overrun.
  - intros pre line rest self loc self1 Hpre Hh Hlen.
    unfold read_sph_stream. erewrite bind_inl; [done|].
    rewrite run_lines_app. erewrite bind_inr by done. simpl.
    erewrite bind_inl; [done|]. rewrite loop_body_data by done.
    by apply data_step_overrun.
  - intros loc toks self a d Hlen Hok Ha Hd Hri Hli Hf.
    destruct (decode_succeeds (ri loc) (li loc) (dataline loc ++ toks) 0 self a Ha)
      as [self' Hdec]; [|done|].
    { intros k Hk. rewrite Hlen in Hk. by eapply group_in_bounds. }
    destruct (shape_ok_spec _ _ Hok Ha) as (d' & _ & Hv & _).
    pose proof (decode_stores _ _ _ _ _ _ _ Hdec) as Hst.
    destruct (decode_values _ _ _ _ _ _ _ Hdec Ha Hv) as (a' & Ha' & Hvals).
    change (token_order 0) with 0 in Hdec.
    exists self', a'. split; [done|]. split; [|split; [|split; [done|split]]].
    + rewrite data_step_complete by (done || lia). rewrite Hdec.
      destruct Hst as (_ & -> & _). by rewrite Hd.
    + unfold advance. by destruct (d <? _)%Z.
    + intros m tok Hm. destruct (Hvals m tok Hm) as (v & -> & Hg).
      split; [by eexists|exact Hg].
    + eapply stores_within_mono; [|exact Hst].
      by intros i c l m (k & _ & -> & _ & -> & _).
Qed.

(** ** The end of the stream *)

(** C2, as the code has it. The end of the stream is never an error: the
    loop just ends. Every prefix (by lines) of a stream that is read
    without error is read without error, and so is the stream with the last
    token of its last data line removed; the incomplete group is then not
    stored, the object is as the earlier lines left it. *)
Theorem C2_truncation_is_silent :
  (∀ lines1 lines2 self self',
     read_sph_stream (lines1 ++ lines2) self = (inr tt, self') →
     ∃ self1, read_sph_stream lines1 self = (inr tt, self1)) ∧
  (∀ line lines last last' toks tok self self',
     read_sph_stream (line :: lines ++ [last]) self = (inr tt, self') →
     str_split last = toks ++ [tok] → str_split last' = toks →
     ∃ self1,
       read_sph_stream (line :: lines) self = (inr tt, self1) ∧
       read_sph_stream (line :: lines ++ [last']) self = (inr tt, self1)).
Proof.
  split.
  - intros lines1 lines2 self self'. unfold read_sph_stream.
    intros (loc & s & H & _)%bind_inv_inr. rewrite run_lines_app in H.
    apply bind_inv_inr in H as (loc1 & s1 & H1 & _).
    exists s1. by erewrite bind_inr.
  - intros line lines last last' toks tok self self'. unfold read_sph_stream.
    intros (loc & s & H & _)%bind_inv_inr Hlast Hlast'.
    rewrite app_comm_cons, run_lines_app in H.
    apply bind_inv_inr in H as (loc1 & s1 & H1 & H2).
    exists s1. split; [by erewrite bind_inr|].
    pose proof H1 as H1'. rewrite run_lines_first in H1'.
    apply bind_inv_inr in H1' as (h & s0 & _ & Hrest).
    apply run_data_lines_ok in Hrest as [Hp Hh]; [|done..].
    simpl in H2. apply bind_inv_inr in H2 as (loc2 & s2 & H2 & _).
    rewrite loop_body_data in H2 by (by rewrite Hh).
    apply Nat.ltb_lt in Hp.
    assert (length (dataline loc1 ++ toks) < li loc1 * 2 + 1) as Hlt.
    { destruct (decide (li loc1 * 2 + 1 < length (dataline loc1 ++ str_split last)))
        as [Hover|Hle].
      - by rewrite data_step_overrun in H2.
      - rewrite Hlast, !length_app in Hle. rewrite length_app. simpl in Hle. lia. }
    erewrite bind_inr; [done|].
    rewrite app_comm_cons, run_lines_app. erewrite bind_inr by exact H1.
    simpl. erewrite bind_inr; [done|].
    rewrite loop_body_data by (by rewrite Hh). rewrite Hlast'.
    by apply data_step_pending.
Qed.

(** ** Line breaks in the body *)

(** C7, as the code has it. Line breaks in the body never change what is
    decoded, but they can turn success into failure. Two ways of breaking
    the same body tokens into lines that are both read without error leave
    the same object; and a body that is read without error is also read
    without error, with the same result, when every token comes on a line
    of its own. (A line that holds tokens of two groups overruns the first
    group and fails, see C4.) *)
Theorem C7_line_breaks line body1 body2 self s1 :
  read_sph_stream (line :: body1) self = (inr tt, s1) →
  concat (str_split <$> body1) = concat (str_split <$> body2) →
  (h ← read_header line;
   feed_tokens (mk_locals (Some h) [] 0 0) (concat (str_split <$> body2));;
   mret tt) self = (inr tt, s1) ∧
  (∀ s2, read_sph_stream (line :: body2) self = (inr tt, s2) → s2 = s1).
Proof.
  assert (∀ body s,
    read_sph_stream (line :: body) self = (inr tt, s) →
    (h ← read_header line;
     feed_tokens (mk_locals (Some h) [] 0 0) (concat (str_split <$> body));;
     mret tt) self = (inr tt, s)) as Hfine.
  { intros body s. rewrite read_sph_stream_first.
    intros (h & s0 & Hh & H)%bind_inv_inr.
    apply bind_inv_inr in H as (loc & s' & H & [= <-]).
    apply run_data_lines_as_tokens in H; [|done..].
    erewrite bind_inr by done. by erewrite bind_inr. }
  intros H1 Htoks. split.
  - rewrite <- Htoks. by apply Hfine.
  - intros s2 H2. apply Hfine in H1, H2. rewrite Htoks in H1. congruence.
Qed.

(** ** Stores stay at or below the diagonal *)

Lemma read_sph_stream_run lines self r self' :
  read_sph_stream lines self = (r, self') →
  ∃ r', run_lines initial_locals lines self = (r', self').
Proof.
  unfold read_sph_stream.
  intros [(e & H & _)|(loc & s & H & [= _ <-])]%bind_inv; eauto.
Qed.

(** C6. Entries with [order_index > degree_index] are never written. A
    fresh array reads zero at every index; reading a stream, whatever its
    outcome, leaves every entry above the diagonal of an array the object
    already had as it was; and when the reader itself allocates the array,
    every such entry reads zero afterwards. *)
Theorem C6_above_diagonal_untouched :
  (∀ n0 n1 n2 n3 i c l m,
     in_bounds (np_zeros n0 n1 n2 n3) i c l m = true →
     nd_getitem (np_zeros n0 n1 n2 n3) i c l m = Some 0%float) ∧
  (∀ lines self r self' a,
     coefs self = Some a → read_sph_stream lines self = (r, self') →
     ∃ a', coefs self' = Some a' ∧
       ∀ i c l m, l < m → nd_getitem a' i c l m = nd_getitem a i c l m) ∧
  (∀ lines self r self' a',
     coefs self = None → read_sph_stream lines self = (r, self') →
     coefs self' = Some a' →
     ∀ i c l m, l < m → in_bounds a' i c l m = true →
       nd_getitem a' i c l m = Some 0%float).
Proof.
  split; [|split].
  - intros. by apply nd_getitem_zeros.
  - intros lines self r self' a Ha [r' H]%read_sph_stream_run.
    apply run_lines_effect in H as [H|[Hn _]]; [|congruence].
    destruct H as (_ & _ & _ & _ & H). rewrite Ha in H.
    destruct H as (a' & Ea' & _ & _ & _ & _ & _ & Hfr).
    exists a'. split; [done|]. intros i c l m Hlm. apply Hfr. lia.
  - intros lines self r self' a' Hn [r' H]%read_sph_stream_run Ha' i c l m Hlm Hb.
    apply run_lines_effect in H as [H|[_ [n H]]].
    + destruct H as (_ & _ & _ & _ & H). rewrite Hn in H. congruence.
    + destruct H as (_ & _ & _ & _ & H). simpl in H.
      destruct H as (a'' & Ea'' & E0 & E1 & E2 & E3 & _ & Hfr).
      assert (a'' = a') as -> by congruence.
      rewrite Hfr by lia. apply nd_getitem_zeros.
      revert Hb. unfold in_bounds. by rewrite E0, E1, E2, E3.
Qed.

(** ** Input after the last group *)

Lemma shape_ok_allocated n self : shape_ok (allocated n self) = true.
Proof.
  unfold shape_ok, allocated. simpl. rewrite nd_valid_zeros.
  replace (Z.of_nat n - 1 + 1)%Z with (Z.of_nat n) by lia.
  by rewrite Nat2Z.id, !Nat.eqb_refl.
Qed.

(** The shape invariant holds throughout a run. *)
Lemma run_lines_shape_ok lines self r self' :
  shape_ok self = true →
  run_lines initial_locals lines self = (r, self') → shape_ok self' = true.
Proof.
  intros Hok [H|[_ [n H]]]%run_lines_effect.
  - by eapply shape_ok_stores.
  - eapply shape_ok_stores; [done|]. apply shape_ok_allocated.
Qed.

(** After the header the array is there, the buffer is short of its
    group, and [header] is set. *)
Lemma run_lines_ok_state line rest self loc self' :
  run_lines initial_locals (line :: rest) self = (inr loc, self') →
  is_Some (coefs self') ∧ pending_ok loc = true ∧ header loc ≠ None.
Proof.
  rewrite run_lines_first. intros (h & s0 & Hh & H)%bind_inv_inr.
  apply read_header_ok in Hh as [_ [a Ha]].
  pose proof H as Hst. apply run_data_lines_stores in Hst; [|done].
  destruct Hst as (_ & _ & _ & _ & Hst). rewrite Ha in Hst. destruct Hst as (a' & Ea' & _).
  apply run_data_lines_ok in H as [? ->]; [|done..]. rewrite Ea'. simpl. eauto.
Qed.

Lemma data_step_blank loc self :
  pending_ok loc = true → data_step loc [] self = (inr loc, self).
Proof.
  intros Hp. apply Nat.ltb_lt in Hp.
  rewrite data_step_pending by (by rewrite app_nil_r).
  rewrite app_nil_r. by destruct loc.
Qed.

Lemma run_blank_lines extra : ∀ loc self,
  header loc ≠ None → pending_ok loc = true → Forall blank extra →
  run_lines loc extra self = (inr loc, self).
Proof.
  induction extra as [|line extra IH]; intros loc self Hh Hp Hb; [done|].
  apply Forall_cons in Hb as [Hb Hbs]. simpl.
  erewrite bind_inr; [by apply IH|].
  rewrite loop_body_data by done. rewrite Hb. by apply data_step_blank.
Qed.

(** A line with tokens, met when all knots are filled, raises and leaves
    the object as it is. *)
Lemma data_step_after_last_knot loc line self a :
  shape_ok self = true → coefs self = Some a →
  dataline loc = [] → li loc = 0 → ri loc = length (knots self) →
  ¬ blank line →
  ∃ e, data_step loc (str_split line) self = (inl e, self).
Proof.
  intros Hok Ha Hd Hl Hr Hb. unfold blank in Hb.
  destruct (str_split line) as [|tok [|tok' toks]] eqn:Hs; [done| |].
  - rewrite data_step_complete by (rewrite ?Hd, ?Hl; simpl; lia).
    rewrite Hd, Hl, Hr. simpl. unfold_M.
    destruct (py_float tok) as [v|]; [|eauto].
    unfold coefs_setitem. rewrite Ha.
    destruct (shape_ok_spec _ _ Hok Ha) as (d & _ & _ & E0 & _).
    unfold nd_setitem, in_bounds. rewrite E0, Nat.ltb_irrefl. simpl. eauto.
  - rewrite data_step_overrun by (rewrite Hd, Hl; simpl; lia). eauto.
Qed.

(** C8, as the code has it. Once every knot is filled ([ri == len(knots)],
    [li] back at 0), only whitespace is ignored: blank lines after that
    point leave the outcome and the object unchanged, while the first line
    with any token makes the reader raise, the object staying as the
    complete stream left it. *)
Theorem C8_input_after_last_group lines self loc self1 :
  shape_ok self = true →
  run_lines initial_locals lines self = (inr loc, self1) →
  header loc ≠ None → ri loc = length (knots self1) → li loc = 0 →
  (∀ extra, Forall blank extra →
     read_sph_stream (lines ++ extra) self = (inr tt, self1)) ∧
  (∀ blanks line rest, Forall blank blanks → ¬ blank line →
     ∃ e, read_sph_stream (lines ++ blanks ++ line :: rest) self = (inl e, self1)).
Proof.
  intros Hok Hrun Hh Hri Hli.
  destruct lines as [|line0 lines0]; [by injection Hrun as <- <-|].
  destruct (run_lines_ok_state _ _ _ _ _ Hrun) as ([a Ha] & Hp & _).
  pose proof (run_lines_shape_ok _ _ _ _ Hok Hrun) as Hok1.
  assert (dataline loc = []) as Hd.
  { unfold pending_ok in Hp. rewrite Hli in Hp. apply Nat.ltb_lt in Hp.
    destruct (dataline loc); [done|simpl in Hp; lia]. }
  split.
  - intros extra Hb. unfold read_sph_stream. erewrite bind_inr; [done|].
    rewrite run_lines_app. erewrite bind_inr by done. by apply run_blank_lines.
  - intros blanks line rest Hb Hnb.
    destruct (data_step_after_last_knot loc line self1 a) as [e He]; try done.
    exists e. unfold read_sph_stream. erewrite bind_inl; [done|].
    rewrite run_lines_app. erewrite bind_inr by done.
    rewrite run_lines_app. erewrite bind_inr by (by apply run_blank_lines).
    simpl. erewrite bind_inl; [done|]. by rewrite loop_body_data.
Qed.

(** ** The knot table *)

Lemma knots_blind_ret {A} (x : A) : knots_blind (mret x).
Proof. by intros ks self Hlen. Qed.

Lemma knots_blind_raise {A} e : knots_blind (raise (A:=A) e).
Proof. by intros ks self Hlen. Qed.

Lemma knots_blind_bind {A B} (m : M A) (f : A → M B) :
  knots_blind m → (∀ x, knots_blind (f x)) → knots_blind (m ≫= f).
Proof.
  intros Hm Hf ks self Hlen. destruct (Hm ks self Hlen) as [E K].
  unfold mbind, M_bind. rewrite E.
  destruct (m self) as [[e|x] s1]; simpl in *; [done|].
  destruct (Hf x ks s1) as [E' K']; [congruence|]. split; congruence.
Qed.

Lemma knots_blind_get_self {A} (f : PyRTS → M A) :
  (∀ s, knots_blind (f s)) →
  (∀ ks s, length ks = length (knots s) → f (with_knots ks s) = f s) →
  knots_blind (get_self ≫= f).
Proof.
  intros Hf Hsame ks self Hlen. unfold mbind, M_bind, get_self.
  rewrite Hsame by done. by apply Hf.
Qed.

Lemma knots_blind_assert b msg : knots_blind (py_assert b msg).
Proof. unfold py_assert. destruct b; [apply knots_blind_ret|apply knots_blind_raise]. Qed.

Lemma knots_blind_convert {A} (conv : string → option A) s :
  knots_blind (convert conv s).
Proof.
  unfold convert. destruct (conv s); [apply knots_blind_ret|apply knots_blind_raise].
Qed.

Lemma knots_blind_list_getitem {A} (xs : list A) i : knots_blind (list_getitem xs i).
Proof.
  unfold list_getitem. destruct (xs !! i); [apply knots_blind_ret|apply knots_blind_raise].
Qed.

Lemma knots_blind_with_degree d : knots_blind (modify (with_degree d)).
Proof. by intros ks self Hlen. Qed.

Lemma knots_blind_with_coefs a : knots_blind (modify (with_coefs a)).
Proof. by intros ks self Hlen. Qed.

Lemma knots_blind_with_radii r r' : knots_blind (modify (with_radii r r')).
Proof. by intros ks self Hlen. Qed.

Lemma knots_blind_coefs_setitem i c l m v : knots_blind (coefs_setitem i c l m v).
Proof.
  intros ks self Hlen. unfold coefs_setitem. simpl.
  destruct (coefs self) as [a|]; [|done]. by destruct (nd_setitem a i c l m v).
Qed.

Create HintDb knots_blind.
#[local] Hint Resolve knots_blind_ret knots_blind_raise knots_blind_assert
  knots_blind_convert knots_blind_list_getitem knots_blind_with_degree
  knots_blind_with_coefs knots_blind_with_radii knots_blind_coefs_setitem
  : knots_blind.

Ltac knots_blind_step :=
  lazymatch goal with
  | |- knots_blind (get_self ≫= _) =>
      apply knots_blind_get_self;
      [intros ?|intros ? ? Hlen; simpl; rewrite ?Hlen; done]
  | |- knots_blind (_ ≫= _) => apply knots_blind_bind; [|intros ?]
  | |- knots_blind (match ?x with _ => _ end) => destruct x
  | |- knots_blind _ => solve [auto with knots_blind]
  end.

Lemma knots_blind_allocate_coefs : knots_blind _allocate_coefs.
Proof. unfold _allocate_coefs. repeat knots_blind_step. Qed.

Lemma knots_blind_read_header line : knots_blind (read_header line).
Proof.
  pose proof knots_blind_allocate_coefs.
  unfold read_header. repeat knots_blind_step.
Qed.

Lemma knots_blind_decode ri li toks : ∀ m mi, knots_blind (decode ri li m mi toks).
Proof.
  induction toks as [|tok rest IH]; intros m mi; simpl; repeat knots_blind_step.
Qed.

Lemma knots_blind_data_step loc toks : knots_blind (data_step loc toks).
Proof.
  pose proof knots_blind_decode.
  unfold data_step. repeat knots_blind_step.
Qed.

Lemma knots_blind_run_lines lines : ∀ loc, knots_blind (run_lines loc lines).
Proof.
  pose proof knots_blind_read_header. pose proof knots_blind_data_step.
  induction lines as [|line rest IH]; intros loc; simpl; [auto with knots_blind|].
  unfold loop_body. repeat knots_blind_step.
Qed.

Lemma knots_blind_read_sph_stream lines : knots_blind (read_sph_stream lines).
Proof.
  pose proof knots_blind_run_lines.
  unfold read_sph_stream. repeat knots_blind_step.
Qed.

(** The body of the constructor, after [self.knots] is stored. *)
Lemma knots_blind_init filename degree r_in r_out :
  knots_blind
    (match degree with
     | Some d => modify (with_degree (Some d));; _allocate_coefs
     | None => modify (with_degree None);; modify (with_coefs None)
     end;;
     match filename with
     | Some f => read_sph_file f
     | None => mret tt
     end;;
     self ← get_self;
     py_assert (bool_decide (is_Some (coefs self)))
       "You must provide a filename or degree";;
     modify (with_radii r_in r_out)).
Proof.
  pose proof knots_blind_allocate_coefs. pose proof knots_blind_read_sph_stream.
  unfold read_sph_file. repeat knots_blind_step.
Qed.

(** C10. The constructor does not look at the values of a supplied knot
    sequence: whatever the sequence (values outside [-1, 1], not monotonic,
    empty), it is stored as it is as [self.knots]; with a degree and no
    file the array gets its shape from the length of the sequence and the
    construction succeeds; and the outcome, the degree and the array are the
    same for any two sequences of the same length. *)
Theorem C10_knots_not_validated filename deg ks r_in r_out :
  knots (__init__ filename deg (Some ks) r_in r_out).2 = ks ∧
  (∀ d, (-1 ≤ d)%Z →
     __init__ None (Some d) (Some ks) r_in r_out =
       (inr tt,
        mk_PyRTS ks (Some d)
          (Some (np_zeros (length ks) 2 (Z.to_nat (d + 1)) (Z.to_nat (d + 1))))
          (Some r_in) (Some r_out))) ∧
  (∀ ks', length ks' = length ks →
     let new := __init__ filename deg (Some ks) r_in r_out in
     let new' := __init__ filename deg (Some ks') r_in r_out in
     new'.1 = new.1 ∧ degree new'.2 = degree new.2 ∧
     coefs new'.2 = coefs new.2).
Proof.
  split; [|split].
  - unfold __init__. simpl.
    set (self := mk_PyRTS ks None None None None).
    destruct (knots_blind_init filename deg r_in r_out ks self eq_refl) as [_ K].
    exact K.
  - intros d Hd. unfold __init__, _allocate_coefs. unfold_M. simpl.
    destruct (Z.ltb_spec (d + 1) 0); [lia|]. done.
  - intros ks' Hlen. unfold __init__. simpl.
    set (self := mk_PyRTS ks None None None None).
    destruct (knots_blind_init filename deg r_in r_out ks' self Hlen) as [E _].
    change (mk_PyRTS ks' None None None None) with (with_knots ks' self).
    rewrite E. done.
Qed.

(** ** The decoding rule of a group *)

(** A complete group of numeric tokens, for an index inside the array, is
    decoded without error: token 0 is the real part of order 0, token
    [2j-1] the real part of order [j], token [2j] the imaginary part of
    order [j]. *)
Lemma decode_group self a ri li toks :
  coefs self = Some a → nd_valid a = true →
  in_bounds a ri 1 li li = true →
  length toks = li * 2 + 1 →
  Forall (λ tok, is_Some (py_float tok)) toks →
  ∃ self' a',
    decode ri li 0 0 toks self = (inr tt, self') ∧ coefs self' = Some a' ∧
    (∀ tok, toks !! 0 = Some tok → nd_getitem a' ri 0 li 0 = py_float tok) ∧
    (∀ j tok, 1 ≤ j → toks !! (2 * j - 1) = Some tok →
       nd_getitem a' ri 0 li j = py_float tok) ∧
    (∀ j tok, 1 ≤ j → toks !! (2 * j) = Some tok →
       nd_getitem a' ri 1 li j = py_float tok).
Proof.
  intros Ha Hv Hb Hlen Hf. apply in_bounds_spec in Hb as (Hb0 & Hb1 & Hb2 & Hb3).
  destruct (decode_succeeds ri li toks 0 self a Ha) as [self' Hdec]; [|done|].
  { intros k Hk. apply in_bounds_spec. pose proof (token_component_lt k).
    unfold token_order. rewrite Hlen in Hk. rewrite Nat.add_0_l. lia. }
  destruct (decode_values _ _ _ _ _ _ _ Hdec Ha Hv) as (a' & Ha' & Hvals).
  exists self', a'. split; [exact Hdec|]. split; [done|].
  split; [|split].
  - intros tok Hk. destruct (Hvals 0 tok Hk) as (v & -> & Hg). exact Hg.
  - intros j tok Hj Hk. destruct (Hvals _ tok Hk) as (v & -> & Hg).
    rewrite Nat.add_0_l in Hg. unfold token_component, token_order in Hg.
    destruct (Nat.eqb_spec (2 * j - 1) 0); [lia|].
    destruct (Nat.eqb_spec ((2 * j - 1) mod 2) 1); [|lia].
    by replace ((2 * j - 1 + 1) / 2) with j in Hg by lia.
  - intros j tok Hj Hk. destruct (Hvals _ tok Hk) as (v & -> & Hg).
    rewrite Nat.add_0_l in Hg. unfold token_component, token_order in Hg.
    destruct (Nat.eqb_spec (2 * j) 0); [lia|].
    destruct (Nat.eqb_spec ((2 * j) mod 2) 1); [lia|].
    by replace ((2 * j + 1) / 2) with j in Hg by lia.
Qed.

(** What a successful data line leaves in the buffer. *)
Lemma data_step_dataline loc toks self loc' self' :
  data_step loc toks self = (inr loc', self') →
  dataline loc' = [] ∨ dataline loc' = dataline loc ++ toks.
Proof.
  destruct (data_step_cases loc toks self) as [H|[H|[[H1 H2]|[H1 H2]]]].
  - rewrite data_step_pending by done. intros [= <- <-]. by right.
  - by rewrite data_step_overrun.
  - by rewrite data_step_too_many_lines.
  - rewrite data_step_complete by done.
    destruct (decode _ _ _ _ _ self) as [[e|[]] s']; [done|].
    destruct (degree s'); [|done]. intros [= <- <-]. left.
    unfold advance. by destruct (_ <? _)%Z.
Qed.

(** * Further properties of the reader and the constructor *)

(** ** What the reader leaves alone *)

Lemma group_index_storable ri li i c l m :
  group_index ri li 0 (li * 2 + 1) i c l m → storable i c l m.
Proof.
  intros (k & Hk & -> & -> & -> & ->). unfold storable, token_component, token_order.
  split; [lia|].
  destruct (Nat.eqb_spec k 0); [by left|].
  destruct (Nat.eqb_spec (k mod 2) 1); [by left|]. right. lia.
Qed.

Lemma data_step_stores_storable loc toks self r self' :
  data_step loc toks self = (r, self') → stores_within storable self self'.
Proof.
  destruct (data_step_cases loc toks self) as [H|[H|[[H1 H2]|[H1 H2]]]].
  - rewrite data_step_pending by done. intros [= <- <-]. apply stores_within_refl.
  - rewrite data_step_overrun by done. intros [= <- <-]. apply stores_within_refl.
  - rewrite data_step_too_many_lines by done. intros [= <- <-].
    apply stores_within_refl.
  - rewrite data_step_complete by done.
    destruct (decode _ _ _ _ _ self) as [r' s'] eqn:Hd.
    change 0 with (token_order 0) in Hd at 2. apply decode_stores in Hd.
    rewrite H1 in Hd.
    assert (stores_within storable self s') as Hst.
    { eapply stores_within_mono; [|exact Hd]. intros. by eapply group_index_storable. }
    destruct r' as [e|[]]; [by intros [= <- <-]|].
    destruct (degree s'); by intros [= <- <-].
Qed.

Lemma run_data_lines_stores_storable lines : ∀ loc self r self',
  header loc ≠ None →
  run_lines loc lines self = (r, self') → stores_within storable self self'.
Proof.
  induction lines as [|line lines IH]; intros loc self r self' Hh.
  - intros [= <- <-]. apply stores_within_refl.
  - simpl. intros [(e & H & ->)|(loc1 & s1 & H & H')]%bind_inv;
      rewrite loop_body_data in H by done.
    + by eapply data_step_stores_storable.
    + eapply stores_within_trans; [by eapply data_step_stores_storable|].
      eapply IH; [|done]. apply data_step_ok in H as [_ ->]. done.
Qed.

(** On an object that has its array a read only stores at storable
    indexes. *)
Lemma read_sph_stream_stores lines self a r self' :
  coefs self = Some a →
  read_sph_stream lines self = (r, self') →
  stores_within storable self self'.
Proof.
  intros Ha [r' H]%read_sph_stream_run.
  destruct lines as [|line rest].
  { injection H as <- <-. apply stores_within_refl. }
  rewrite run_lines_first in H.
  apply bind_inv in H as [(e & H & ->)|(h & s1 & H & H')].
  - apply read_header_inv in H as [(? & _ & ->)|[? _]]; [|done].
    apply stores_within_refl.
  - apply run_data_lines_stores_storable in H'; [|done].
    apply read_header_inv in H as [(? & ? & _)|[_ [(? & _ & ->)|(Hn & _)]]];
      [done|done|congruence].
Qed.

(** X1. On an object that has its array, reading a stream, whatever the
    outcome, changes nothing but entries of that array: knots, degree and
    radii are as before, the array keeps its shape, and it reads as before
    at every index that is not a real part with [order ≤ degree] or an
    imaginary part with [1 ≤ order ≤ degree]; in particular the imaginary
    part of order 0 is never written. *)
Theorem X1_reader_only_stores_coefficients lines self a r self' :
  coefs self = Some a →
  read_sph_stream lines self = (r, self') →
  knots self' = knots self ∧ degree self' = degree self ∧
  inner_radius self' = inner_radius self ∧ outer_radius self' = outer_radius self ∧
  ∃ a', coefs self' = Some a' ∧
    (dim0 a', dim1 a', dim2 a', dim3 a') = (dim0 a, dim1 a, dim2 a, dim3 a) ∧
    (∀ i c l m, ¬ storable i c l m → nd_getitem a' i c l m = nd_getitem a i c l m) ∧
    (∀ i l, nd_getitem a' i 1 l 0 = nd_getitem a i 1 l 0).
Proof.
  intros Ha H.
  destruct (read_sph_stream_stores _ _ _ _ _ Ha H) as (K & D & I & O & Hst).
  rewrite Ha in Hst. destruct Hst as (a' & Ea' & E0 & E1 & E2 & E3 & _ & Hfr).
  repeat split; try done. exists a'. split; [done|]. split; [congruence|].
  split; [done|]. intros i l. apply Hfr. unfold storable. lia.
Qed.

(** ** The header, accepted and rejected *)

(** A header branch that succeeds has seen at least four tokens, integers
    in first and third place, and counts of ones that fit the object. *)
Lemma read_header_accepts line self h self' :
  read_header line self = (inr h, self') →
  ∃ t0 t1 t2 t3 more,
    str_split line = t0 :: t1 :: t2 :: t3 :: more ∧
    is_Some (py_int t0) ∧ is_Some (py_int t2) ∧
    length (knots self) = str_count t3 "1" ∧
    (∀ d, degree self = Some d → d = (Z.of_nat (str_count t1 "1") - 1)%Z) ∧
    self' = match coefs self with
            | None => allocated (str_count t1 "1") self
            | Some _ => self
            end.
Proof.
  intros H.
  destruct (str_split line) as [|t0 [|t1 [|t2 [|t3 more]]]] eqn:Hs.
  1-4: exfalso; unfold read_header in H; rewrite Hs in H; unfold_M; simpl in H;
    repeat case_match; simplify_eq.
  destruct (py_int t0) as [n0|] eqn:H0;
    [|exfalso; unfold read_header in H; rewrite Hs in H; unfold_M; simpl in H;
      rewrite H0 in H; simplify_eq].
  destruct (py_int t2) as [n2|] eqn:H2;
    [|exfalso; unfold read_header in H; rewrite Hs in H; unfold_M; simpl in H;
      rewrite H0, H2 in H; repeat case_match; simplify_eq].
  rewrite (read_header_tokens _ _ _ _ _ _ _ _ self Hs H0 H2) in H.
  exists t0, t1, t2, t3, more. rewrite H0, H2.
  destruct (degree self) as [d|] eqn:Ed.
  - destruct (Z.eqb_spec (Z.of_nat (str_count t1 "1") - 1) d); simpl in H; [|done].
    destruct (Nat.eqb_spec (length (knots self)) (str_count t3 "1")); simpl in H;
      [|done].
    injection H as <- <-. repeat split; eauto. by intros ? [= <-].
  - destruct (Nat.eqb_spec (length (knots self)) (str_count t3 "1")); simpl in H;
      [|done].
    injection H as <- <-. repeat split; eauto. done.
Qed.

(** What a successful read of a non-empty stream says of the object. *)
Lemma read_ok_agrees_with_header line rest self self' :
  shape_ok self = true →
  read_sph_stream (line :: rest) self = (inr tt, self') →
  ∃ t0 t1 t2 t3 more a',
    str_split line = t0 :: t1 :: t2 :: t3 :: more ∧
    degree self' = Some (Z.of_nat (str_count t1 "1") - 1)%Z ∧
    length (knots self') = str_count t3 "1" ∧
    coefs self' = Some a' ∧
    (dim0 a', dim1 a', dim2 a', dim3 a')
    = (str_count t3 "1", 2, str_count t1 "1", str_count t1 "1").
Proof.
  intros Hok H. rewrite read_sph_stream_first in H.
  apply bind_inv_inr in H as (h & s1 & Hh & H).
  apply bind_inv_inr in H as (loc & s2 & H & [= <-]).
  apply run_data_lines_stores in H as (K & D & _ & _ & Hst); [|done].
  destruct (read_header_accepts _ _ _ _ Hh)
    as (t0 & t1 & t2 & t3 & more & Hs & _ & _ & Hk & Hd & ->).
  exists t0, t1, t2, t3, more.
  destruct (coefs self) as [a|] eqn:Ea.
  - destruct (shape_ok_spec _ _ Hok Ea) as (d & Ed & _ & E0 & E1 & E2 & E3).
    rewrite Ea in Hst. destruct Hst as (a' & Ea' & F0 & F1 & F2 & F3 & _).
    exists a'. rewrite D, K, Ed, (Hd d Ed).
    repeat split; try done.
    rewrite F0, F1, F2, F3, E0, E1, E2, E3, Hk, (Hd d Ed).
    replace (Z.of_nat (str_count t1 "1") - 1 + 1)%Z
      with (Z.of_nat (str_count t1 "1")) by lia.
    by rewrite Nat2Z.id.
  - simpl in Hst. destruct Hst as (a' & Ea' & F0 & F1 & F2 & F3 & _).
    exists a'. rewrite D, K. simpl in *. repeat split; try done.
    by rewrite F0, F1, F2, F3, Hk.
Qed.

(** X4. After any successful read of a non-empty stream into an object
    that keeps the shape invariant, the object agrees with the header: the
    first line has at least four tokens, the degree is the number of ones in
    its second token minus one, [len(knots)] is the number of ones in its
    fourth token, and the array is allocated with the shape
    [(len(knots), 2, degree+1, degree+1)]. *)
Theorem X4_object_agrees_with_header line rest self self' :
  shape_ok self = true →
  read_sph_stream (line :: rest) self = (inr tt, self') →
  ∃ t0 t1 t2 t3 more a',
    str_split line = t0 :: t1 :: t2 :: t3 :: more ∧
    degree self' = Some (Z.of_nat (str_count t1 "1") - 1)%Z ∧
    length (knots self') = str_count t3 "1" ∧
    coefs self' = Some a' ∧
    (dim0 a', dim1 a', dim2 a', dim3 a')
    = (str_count t3 "1", 2, str_count t1 "1", str_count t1 "1").
Proof. apply read_ok_agrees_with_header. Qed.

(** X6. When the header branch raises on the first line, the read raises
    that exception and the object is exactly as it was (nothing is set or
    allocated before a header is accepted); and a first line with fewer than
    four tokens is always rejected, with IndexError, ValueError (a first or
    third token that is not an integer) or the degree assertion. *)
Theorem X6_rejected_header line rest self :
  (∀ e self', read_header line self = (inl e, self') →
     self' = self ∧ read_sph_stream (line :: rest) self = (inl e, self)) ∧
  (length (str_split line) < 4 →
     ∃ e, read_sph_stream (line :: rest) self = (inl e, self) ∧
       (e = IndexError ∨ e = ValueError ∨
        e = AssertionError "Wrong number of 1s in SH header")).
Proof.
  split.
  - intros e self' Hr. pose proof Hr as Hinv.
    apply read_header_inv in Hinv as [(? & _ & ->)|[? _]]; [|done].
    split; [done|]. rewrite read_sph_stream_first. by erewrite bind_inl.
  - intros Hlen.
    destruct (read_header line self) as [[e|h] s1] eqn:Hh.
    + exists e. rewrite read_sph_stream_first. erewrite bind_inl by done.
      pose proof Hh as Hinv.
      apply read_header_inv in Hinv as [(? & _ & ->)|[? _]]; [|done].
      split; [done|]. clear rest.
      unfold read_header in Hh.
      destruct (str_split line) as [|t0 [|t1 [|t2 [|t3 more]]]];
        [| | | |simpl in Hlen; lia];
        unfold_M; simpl in Hh; repeat case_match; simplify_eq; eauto.
    + apply read_header_accepts in Hh as (t0 & t1 & t2 & t3 & more & Hs & _).
      rewrite Hs in Hlen. simpl in Hlen. lia.
Qed.

(** ** The exceptions of the reader *)

Lemma read_header_errors line self e self' :
  read_header line self = (inl e, self') →
  e = IndexError ∨ e = ValueError ∨ shape_mismatch e.
Proof.
  intros H. unfold shape_mismatch.
  destruct (str_split line) as [|t0 [|t1 [|t2 [|t3 more]]]] eqn:Hs.
  1-4: unfold read_header in H; rewrite Hs in H; unfold_M; simpl in H;
    repeat case_match; simplify_eq; eauto.
  destruct (py_int t0) as [n0|] eqn:H0;
    [|unfold read_header in H; rewrite Hs in H; unfold_M; simpl in H;
      rewrite H0 in H; simplify_eq; eauto].
  destruct (py_int t2) as [n2|] eqn:H2;
    [|unfold read_header in H; rewrite Hs in H; unfold_M; simpl in H;
      rewrite H0, H2 in H; repeat case_match; simplify_eq; eauto].
  rewrite (read_header_tokens _ _ _ _ _ _ _ _ self Hs H0 H2) in H.
  repeat case_match; simplify_eq; eauto.
Qed.

(** With an array to store into, the decoding loop can only fail on a
    conversion or on an index. *)
Lemma decode_errors ri li toks : ∀ m mi self a e self',
  coefs self = Some a →
  decode ri li m mi toks self = (inl e, self') →
  e = ValueError ∨ e = IndexError.
Proof.
  assert (∀ c mi v self a r s1,
    coefs self = Some a → coefs_setitem ri c li mi v self = (r, s1) →
    r = inl IndexError ∨ r = inr tt ∧ is_Some (coefs s1)) as Hset.
  { intros c mi v self a r s1 Ha. unfold coefs_setitem. rewrite Ha.
    destruct (nd_setitem a ri c li mi v); intros [= <- <-]; eauto. }
  induction toks as [|tok rest IH]; intros m mi self a e self' Ha; [done|].
  cbn [decode].
  destruct (m =? 0); [|destruct (m mod 2 =? 1)];
    (intros [(e' & H & [= ->])|(v & s0 & H & H')]%bind_inv;
     [apply convert_inv in H as [_ [[[= ->] _]|(? & ? & _)]]; [by left|done]|];
     apply convert_inv in H as [-> _];
     apply bind_inv in H' as [(e' & H & [= ->])|([] & s1 & H & H')];
     [destruct (Hset _ _ _ _ _ _ _ Ha H) as [[= ->]|[? _]]; [by right|done]|];
     destruct (Hset _ _ _ _ _ _ _ Ha H) as [?|[_ [a1 Ha1]]]; [done|];
     by eapply IH).
Qed.

(** A decoding that succeeds on at least one token has stored at knot
    index [ri], which is therefore inside the array. *)
Lemma decode_ok_knot_index ri li tok rest m mi self a self' :
  coefs self = Some a →
  decode ri li m mi (tok :: rest) self = (inr tt, self') →
  ri < dim0 a.
Proof.
  intros Ha. cbn [decode].
  assert (∀ c v r s1, coefs_setitem ri c li mi v self = (inr r, s1) → ri < dim0 a)
    as Hset.
  { intros c v r s1. unfold coefs_setitem. rewrite Ha.
    destruct (nd_setitem a ri c li mi v) eqn:Es; [|done]. intros _.
    apply nd_setitem_bounds, in_bounds_spec in Es. tauto. }
  destruct (m =? 0); [|destruct (m mod 2 =? 1)];
    (intros (v & s0 & H & H')%bind_inv_inr; apply convert_inv in H as [-> _];
     apply bind_inv_inr in H' as (? & s1 & H & _); by eapply Hset).
Qed.

(** One data line on a well-shaped, allocated object with [ri] not past
    the knots: it fails only with a reader error, and on success [ri] is
    still not past the knots. *)
Lemma data_step_guarded loc toks self r self' :
  shape_ok self = true → is_Some (coefs self) →
  ri loc ≤ length (knots self) →
  data_step loc toks self = (r, self') →
  match r with
  | inl e => reader_error e
  | inr loc' => ri loc' ≤ length (knots self)
  end.
Proof.
  intros Hok [a Ha] Hri. unfold reader_error.
  destruct (shape_ok_spec _ _ Hok Ha) as (d & Ed & _ & E0 & _).
  destruct (data_step_cases loc toks self) as [H|[H|[[H1 H2]|[H1 H2]]]].
  - rewrite data_step_pending by done. by intros [= <- <-].
  - rewrite data_step_overrun by done. intros [= <- <-]. eauto.
  - lia.
  - rewrite data_step_complete by done.
    destruct (decode _ _ _ _ _ self) as [[e|[]] s'] eqn:Hd.
    + intros [= <- <-]. apply (decode_errors _ _ _ _ _ _ _ _ _ Ha) in Hd as [->| ->];
        eauto.
    + pose proof Hd as Hst. change 0 with (token_order 0) in Hst at 2.
      apply decode_stores in Hst as (_ & -> & _). rewrite Ed.
      intros [= <- <-]. unfold advance.
      destruct (d <? _)%Z; simpl; [|done].
      destruct (dataline loc ++ toks) as [|tok rest]; [simpl in H1; lia|].
      apply (decode_ok_knot_index _ _ _ _ _ _ _ _ _ Ha) in Hd. lia.
Qed.

Lemma run_data_lines_guarded lines : ∀ loc self e self',
  header loc ≠ None →
  shape_ok self = true → is_Some (coefs self) →
  ri loc ≤ length (knots self) →
  run_lines loc lines self = (inl e, self') → reader_error e.
Proof.
  induction lines as [|line lines IH]; intros loc self e self' Hh Hok Hc Hri; [done|].
  simpl. intros [(e' & H & [= ->])|(loc1 & s1 & H & H')]%bind_inv;
    rewrite loop_body_data in H by done.
  - by apply (data_step_guarded _ _ _ _ _ Hok Hc Hri H).
  - pose proof (data_step_guarded _ _ _ _ _ Hok Hc Hri H) as Hri1. simpl in Hri1.
    pose proof (data_step_stores _ _ _ _ _ H) as Hst.
    pose proof (data_step_ok _ _ _ _ _ H) as [_ Hh1].
    eapply (IH loc1 s1); [congruence|by eapply shape_ok_stores| | |done].
    + destruct Hst as (_ & _ & _ & _ & Hst). destruct Hc as [a Ha].
      rewrite Ha in Hst. destruct Hst as (a' & -> & _). eauto.
    + destruct Hst as (-> & _). done.
Qed.

(** On a well-shaped object every exception of a read is a reader error. *)
Lemma read_sph_stream_errors lines self e self' :
  shape_ok self = true →
  read_sph_stream lines self = (inl e, self') → reader_error e.
Proof.
  intros Hok H.
  assert (run_lines initial_locals lines self = (inl e, self')) as Hrun.
  { revert H. unfold read_sph_stream.
    intros [(e' & H & [= ->])|(loc & s & _ & [=])]%bind_inv. done. }
  destruct lines as [|line rest]; [done|].
  rewrite run_lines_first in Hrun. unfold reader_error.
  apply bind_inv in Hrun as [(e' & Hh & [= ->])|(h & s1 & Hh & Hrun)].
  - apply read_header_errors in Hh. tauto.
  - eapply (run_data_lines_guarded rest (mk_locals (Some h) [] 0 0) s1);
      [done| | | |exact Hrun].
    + apply read_header_inv in Hh as [(? & ? & _)|[_ [(? & _ & ->)|(_ & n & ->)]]];
        [done|done|apply shape_ok_allocated].
    + by apply read_header_ok in Hh as [_ ?].
    + simpl. lia.
Qed.

(** X7. On an object that keeps the shape invariant, the only exceptions
    [read_sph_stream] raises are IndexError, ValueError, the two header
    assertions and "Too much data". The assertion "Too many lines!" never
    fires (a store at knot index [len(knots)] raises IndexError before [ri]
    can pass it), and there is no TypeError from a missing degree or
    array. *)
Theorem X7_reader_errors lines self e self' :
  shape_ok self = true →
  read_sph_stream lines self = (inl e, self') →
  reader_error e ∧ e ≠ AssertionError "Too many lines!" ∧ e ≠ TypeError.
Proof.
  intros Hok H. pose proof (read_sph_stream_errors _ _ _ _ Hok H) as He.
  split; [done|]. unfold reader_error, shape_mismatch in He.
  split; intros ->; destruct He as [?|[?|[[?|?]|?]]]; done.
Qed.

(** ** The constructor *)

(** A read keeps the shape invariant, the knots and the radii. *)
Lemma read_sph_stream_keeps lines self r self' :
  shape_ok self = true →
  read_sph_stream lines self = (r, self') →
  shape_ok self' = true ∧ knots self' = knots self ∧
  inner_radius self' = inner_radius self ∧ outer_radius self' = outer_radius self.
Proof.
  intros Hok [r' H]%read_sph_stream_run.
  split; [by eapply run_lines_shape_ok|].
  apply run_lines_effect in H as [(K & _ & I & O & _)|[_ [n (K & _ & I & O & _)]]];
    done.
Qed.

(** A read that succeeds leaves an array when there was one before or when
    the stream has a first line. *)
Lemma read_sph_stream_ok_coefs lines self self' :
  read_sph_stream lines self = (inr tt, self') →
  is_Some (coefs self) ∨ lines ≠ [] → is_Some (coefs self').
Proof.
  intros H Hcase.
  destruct lines as [|line rest].
  - injection H as <-. by destruct Hcase.
  - unfold read_sph_stream in H. apply bind_inv_inr in H as (loc & s & H & [= <-]).
    by apply run_lines_ok_state in H as [? _].
Qed.

(** The first statements of the constructor, up to the allocation. *)
Lemma init_degree_step deg ks r s1 :
  (match deg with
   | Some d => modify (with_degree (Some d));; _allocate_coefs
   | None => modify (with_degree None);; modify (with_coefs None)
   end) (mk_PyRTS ks None None None None) = (r, s1) →
  (∃ d, deg = Some d ∧ (d + 1 < 0)%Z ∧ r = inl ValueError) ∨
  r = inr tt ∧ knots s1 = ks ∧ shape_ok s1 = true ∧
    inner_radius s1 = None ∧ outer_radius s1 = None ∧
    (coefs s1 = None ↔ deg = None).
Proof.
  destruct deg as [d|]; unfold _allocate_coefs; unfold_M; simpl.
  - destruct (Z.ltb_spec (d + 1) 0); intros [= <- <-]; [left; eauto|].
    right. repeat split; try done.
    unfold shape_ok. simpl. by rewrite nd_valid_zeros, !Nat.eqb_refl.
  - intros [= <- <-]. by right.
Qed.

(** X2. A constructor call that returns has established the invariant of
    the class, whatever its arguments: the knots are the ones supplied (or
    the default table), degree and array are set, the array is a full block
    of shape [(len(knots), 2, degree+1, degree+1)], and the radii are
    stored. *)
Theorem X2_constructed_object_is_well_shaped filename deg ks r_in r_out self :
  __init__ filename deg ks r_in r_out = (inr tt, self) →
  knots self = default DEFAULT_KNOTS ks ∧
  shape_ok self = true ∧ is_Some (coefs self) ∧ is_Some (degree self) ∧
  inner_radius self = Some r_in ∧ outer_radius self = Some r_out.
Proof.
  unfold __init__. intros H.
  apply bind_inv_inr in H as ([] & s1 & HA & H).
  apply bind_inv_inr in H as ([] & s2 & HB & H).
  apply bind_inv_inr in H as (? & ? & [= <- <-] & H).
  apply bind_inv_inr in H as ([] & s3 & HC & [= <-]).
  unfold py_assert in HC. destruct (bool_decide_reflect (is_Some (coefs s2)));
    [|done]. injection HC as <-.
  apply init_degree_step in HA as [(? & _ & _ & ?)|(_ & K1 & Hok1 & _)]; [done|].
  assert (shape_ok s2 = true ∧ knots s2 = knots s1) as [Hok2 K2].
  { destruct filename as [f|]; [|by injection HB as <-].
    by apply read_sph_stream_keeps in HB as (? & ? & _). }
  simpl. repeat split; try done; [congruence|].
  destruct i as [a Ha]. destruct (shape_ok_spec _ _ Hok2 Ha) as (d & -> & _). eauto.
Qed.

(** X3. The constructor fails its own assertion "You must provide a
    filename or degree" exactly when no degree is given and there is no
    file or the file has no line at all; with a degree, or with a file that
    has a first line, a failure is always some other exception. *)
Theorem X3_no_shape_information filename deg ks r_in r_out :
  (__init__ filename deg ks r_in r_out).1
  = inl (AssertionError "You must provide a filename or degree")
  ↔ deg = None ∧ (filename = None ∨ filename = Some []).
Proof.
  split.
  - destruct (__init__ filename deg ks r_in r_out) as [r self] eqn:H.
    intros Hr. simpl in Hr. subst r. unfold __init__ in H.
    apply bind_inv in H as [(e & HA & [= <-])|([] & s1 & HA & H)].
    { by apply init_degree_step in HA as [(? & _ & _ & ?)|(? & _)]. }
    apply init_degree_step in HA as [(? & _ & _ & ?)|(_ & K1 & Hok1 & _ & _ & Hc1)];
      [done|].
    apply bind_inv in H as [(e & HB & [= <-])|([] & s2 & HB & H)].
    { destruct filename as [f|]; [|done].
      apply read_sph_stream_errors in HB; [|done].
      unfold reader_error, shape_mismatch in HB.
      by destruct HB as [?|[?|[[?|?]|?]]]. }
    apply bind_inv in H as [(e & [=] & _)|(? & ? & [= <- <-] & H)].
    apply bind_inv in H as [(e & HC & _)|([] & s3 & _ & [=])].
    unfold py_assert in HC.
    destruct (bool_decide_reflect (is_Some (coefs s2))) as [|Hn]; [done|].
    assert (deg = None) as Hdeg.
    { apply Hc1. destruct (coefs s1) as [a|] eqn:Ha; [|done]. exfalso. apply Hn.
      destruct filename as [f|]; [|injection HB as <-; rewrite Ha; eauto].
      eapply read_sph_stream_ok_coefs; [done|]. left. rewrite Ha. eauto. }
    split; [done|].
    destruct filename as [[|line rest]|]; [by right|exfalso|by left].
    apply Hn. eapply read_sph_stream_ok_coefs; [done|]. by right.
  - intros [-> [-> | ->]]; reflexivity.
Qed.

(** ** A complete stream *)

(** One complete group on one line, for an existing knot and degree: the
    line is accepted, the locals advance, the tokens sit at their indexes
    and nothing outside the group [(ri, li)] is stored. *)
Lemma data_step_group h ri li line self a d :
  shape_ok self = true → coefs self = Some a → degree self = Some d →
  ri < length (knots self) → (Z.of_nat li ≤ d)%Z →
  length (str_split line) = li * 2 + 1 →
  Forall (λ tok, is_Some (py_float tok)) (str_split line) →
  ∃ self' a',
    data_step (mk_locals (Some h) [] ri li) (str_split line) self
    = (inr (advance (mk_locals (Some h) [] ri li) d), self') ∧
    coefs self' = Some a' ∧
    stores_within (λ i c l m, i = ri ∧ l = li) self self' ∧
    (∀ m tok, str_split line !! m = Some tok →
       nd_getitem a' ri (token_component m) li (token_order m) = py_float tok).
Proof.
  intros Hok Ha Hd Hri Hli Hlen Hnum.
  destruct (shape_ok_spec _ _ Hok Ha) as (d' & _ & Hv & _).
  destruct (decode_succeeds ri li (str_split line) 0 self a Ha) as [self' Hdec];
    [|done|].
  { intros k Hk. rewrite Hlen in Hk. change (0 + k) with k.
    by apply (group_in_bounds self a d). }
  pose proof (decode_stores _ _ _ _ _ _ _ Hdec) as Hst.
  destruct (decode_values _ _ _ _ _ _ _ Hdec Ha Hv) as (a' & Ha' & Hvals).
  exists self', a'. split; [|split; [done|split]].
  - rewrite data_step_complete by (simpl; lia). simpl.
    change (token_order 0) with 0 in Hdec. rewrite Hdec.
    destruct Hst as (_ & -> & _). by rewrite Hd.
  - eapply stores_within_mono; [|exact Hst].
    by intros i c l m (k & _ & -> & _ & -> & _).
  - intros m tok Hm. destruct (Hvals m tok Hm) as (v & -> & Hg). exact Hg.
Qed.

(** The lines of one knot, from degree [li0] up to the degree of the
    object. *)
Lemma run_knot_lines h ri d ls : ∀ li0 self a,
  shape_ok self = true → coefs self = Some a → degree self = Some d →
  ri < length (knots self) →
  ls ≠ [] → Z.of_nat (li0 + length ls) = (d + 1)%Z →
  (∀ j line, ls !! j = Some line →
     length (str_split line) = (li0 + j) * 2 + 1 ∧
     Forall (λ tok, is_Some (py_float tok)) (str_split line)) →
  ∃ self' a',
    run_lines (mk_locals (Some h) [] ri li0) ls self
    = (inr (mk_locals (Some h) [] (ri + 1) 0), self') ∧
    coefs self' = Some a' ∧
    stores_within (λ i c l m, i = ri ∧ li0 ≤ l) self self' ∧
    (∀ j line m tok, ls !! j = Some line → str_split line !! m = Some tok →
       nd_getitem a' ri (token_component m) (li0 + j) (token_order m)
       = py_float tok).
Proof.
  induction ls as [|line rest IH]; intros li0 self a Hok Ha Hd Hri Hne Hlen Hlines;
    [done|].
  destruct (Hlines 0 line eq_refl) as [Hl Hnum]. rewrite Nat.add_0_r in Hl.
  simpl in Hlen.
  destruct (data_step_group h ri li0 line self a d) as (s1 & a1 & Hstep & Ha1 & Hst1 & Hv1);
    try done; [lia|].
  pose proof (shape_ok_stores _ _ _ Hst1 Hok) as Hok1.
  destruct Hst1 as (K1 & D1 & I1 & O1 & Hst1').
  assert (stores_within (λ i c l m, i = ri ∧ l = li0) self s1) as Hst1
    by done.
  cbn [run_lines]. erewrite bind_inr by (by rewrite loop_body_data).
  unfold advance. simpl.
  destruct rest as [|line' rest'].
  - destruct (Z.ltb_spec d (Z.of_nat (li0 + 1))); [|simpl in Hlen; lia].
    exists s1, a1. split; [done|]. split; [done|]. split.
    + eapply stores_within_mono; [|exact Hst1]. intros ???? [-> ->]. lia.
    + intros [|j] line0 m tok Hj Hm; [|done]. injection Hj as <-.
      rewrite Nat.add_0_r. by apply Hv1.
  - destruct (Z.ltb_spec d (Z.of_nat (li0 + 1))); [simpl in Hlen; lia|].
    destruct (IH (li0 + 1) s1 a1) as (s2 & a2 & Hrun & Ha2 & Hst2 & Hv2);
      try done; [congruence|congruence|simpl in *; lia| |].
    { intros j line0 Hj. replace (li0 + 1 + j) with (li0 + S j) by lia.
      by apply Hlines. }
    exists s2, a2. split; [done|]. split; [done|]. split.
    + eapply stores_within_trans.
      * eapply stores_within_mono; [|exact Hst1]. intros ???? [-> ->]. lia.
      * eapply stores_within_mono; [|exact Hst2]. intros ???? [-> ?]. lia.
    + intros [|j] line0 m tok Hj Hm.
      * injection Hj as <-. rewrite Nat.add_0_r.
        destruct Hst2 as (_ & _ & _ & _ & Hfr). rewrite Ha1 in Hfr.
        destruct Hfr as (a2' & Ea2 & _ & _ & _ & _ & _ & Hfr).
        assert (a2' = a2) as -> by congruence.
        rewrite Hfr by lia. by apply Hv1.
      * replace (li0 + S j) with (li0 + 1 + j) by lia. by eapply Hv2.
Qed.

(** The lines of all the knots from [ri0] on. *)
Lemma run_all_knots h d knot_lines : ∀ ri0 self a,
  shape_ok self = true → coefs self = Some a → degree self = Some d →
  (0 ≤ d)%Z →
  ri0 + length knot_lines = length (knots self) →
  (∀ r ls, knot_lines !! r = Some ls → Z.of_nat (length ls) = (d + 1)%Z) →
  (∀ r ls li line, knot_lines !! r = Some ls → ls !! li = Some line →
     length (str_split line) = li * 2 + 1 ∧
     Forall (λ tok, is_Some (py_float tok)) (str_split line)) →
  ∃ self' a',
    run_lines (mk_locals (Some h) [] ri0 0) (concat knot_lines) self
    = (inr (mk_locals (Some h) [] (length (knots self)) 0), self') ∧
    coefs self' = Some a' ∧
    stores_within (λ i c l m, ri0 ≤ i) self self' ∧
    (∀ r ls li line m tok,
       knot_lines !! r = Some ls → ls !! li = Some line →
       str_split line !! m = Some tok →
       nd_getitem a' (ri0 + r) (token_component m) li (token_order m)
       = py_float tok).
Proof.
  induction knot_lines as [|ls rest IH]; intros ri0 self a Hok Ha Hd Hd0 Hn Hlen Hlines.
  - simpl in *. rewrite Nat.add_0_r in Hn. subst ri0.
    exists self, a. split; [done|]. split; [done|].
    split; [apply stores_within_refl|]. by intros r ls li line m tok.
  - simpl in Hn. pose proof (Hlen 0 ls eq_refl) as Hls.
    assert (ri0 < length (knots self)) as Hri by lia.
    assert (ls ≠ []) as Hne by (destruct ls; [simpl in Hls; lia|done]).
    assert (∀ j ln, ls !! j = Some ln →
              length (str_split ln) = (0 + j) * 2 + 1 ∧
              Forall (λ tok, is_Some (py_float tok)) (str_split ln)) as Hls'
      by (intros j ln Hj; by apply (Hlines 0 ls j ln)).
    destruct (run_knot_lines h ri0 d ls 0 self a Hok Ha Hd Hri Hne Hls Hls')
      as (s1 & a1 & Hrun1 & Ha1 & Hst1 & Hv1).
    pose proof (shape_ok_stores _ _ _ Hst1 Hok) as Hok1.
    pose proof Hst1 as (K1 & D1 & _).
    destruct (IH (ri0 + 1) s1 a1) as (s2 & a2 & Hrun2 & Ha2 & Hst2 & Hv2);
      try done; [congruence|rewrite K1; lia| | |].
    { intros r ls' Hr. by apply (Hlen (S r)). }
    { intros r ls' li line Hr. by apply (Hlines (S r)). }
    exists s2, a2. split; [|split; [done|split]].
    + simpl. rewrite run_lines_app. erewrite bind_inr by done. by rewrite <- K1.
    + eapply stores_within_trans.
      * eapply stores_within_mono; [|exact Hst1]. intros ???? [-> _]. lia.
      * eapply stores_within_mono; [|exact Hst2]. intros i c l m Hi.
        simpl in Hi. lia.
    + intros [|r] ls' li line m tok Hr Hli Hm.
      * injection Hr as <-. rewrite Nat.add_0_r.
        destruct Hst2 as (_ & _ & _ & _ & Hfr). rewrite Ha1 in Hfr.
        destruct Hfr as (a2' & Ea2 & _ & _ & _ & _ & _ & Hfr).
        assert (a2' = a2) as -> by congruence.
        rewrite Hfr by lia. by apply (Hv1 li line).
      * replace (ri0 + S r) with (ri0 + 1 + r) by lia. by eapply Hv2.
Qed.

(** A complete stream, header and body, on a well-shaped object. *)
Lemma complete_stream_read line knot_lines self t0 t1 t2 t3 more :
  shape_ok self = true →
  str_split line = t0 :: t1 :: t2 :: t3 :: more →
  is_Some (py_int t0) → is_Some (py_int t2) →
  1 ≤ str_count t1 "1" →
  (∀ d, degree self = Some d → d = (Z.of_nat (str_count t1 "1") - 1)%Z) →
  length (knots self) = str_count t3 "1" →
  length knot_lines = length (knots self) →
  (∀ ri ls, knot_lines !! ri = Some ls → length ls = str_count t1 "1") →
  (∀ ri ls li ln, knot_lines !! ri = Some ls → ls !! li = Some ln →
     length (str_split ln) = li * 2 + 1 ∧
     Forall (λ tok, is_Some (py_float tok)) (str_split ln)) →
  ∃ self' a',
    read_sph_stream (line :: concat knot_lines) self = (inr tt, self') ∧
    run_lines initial_locals (line :: concat knot_lines) self
    = (inr (mk_locals (Some (str_split line)) [] (length (knots self)) 0), self') ∧
    coefs self' = Some a' ∧
    ∀ ri ls li ln m tok,
      knot_lines !! ri = Some ls → ls !! li = Some ln →
      str_split ln !! m = Some tok →
      nd_getitem a' ri (token_component m) li (token_order m) = py_float tok.
Proof.
  intros Hok Hs [n0 H0] [n2 H2] Hone Hdeg Hk Hn Hlen Hlines.
  pose proof (read_header_tokens _ _ _ _ _ _ _ _ self Hs H0 H2) as Hh.
  rewrite Hk, Nat.eqb_refl in Hh. simpl in Hh.
  assert (match degree self with
          | Some d => negb (Z.of_nat (str_count t1 "1") - 1 =? d)%Z
          | None => false
          end = false) as Hm.
  { destruct (degree self) as [d|] eqn:Ed; [|done].
    rewrite (Hdeg d eq_refl). by rewrite Z.eqb_refl. }
  rewrite Hm in Hh. clear Hm.
  set (s1 := match coefs self with
             | Some _ => self
             | None => _
             end) in Hh.
  assert (shape_ok s1 = true ∧ knots s1 = knots self ∧
          degree s1 = Some (Z.of_nat (str_count t1 "1") - 1)%Z ∧
          is_Some (coefs s1)) as (Hok1 & K1 & D1 & [a1 Ha1]).
  { subst s1. destruct (coefs self) as [a|] eqn:Ea.
    - destruct (shape_ok_spec _ _ Hok Ea) as (d & Ed & _). rewrite Ea.
      rewrite Ed, (Hdeg d Ed). eauto.
    - rewrite <- Hk. split; [apply shape_ok_allocated|]. simpl. eauto. }
  destruct (run_all_knots (t0 :: t1 :: t2 :: t3 :: more)
              (Z.of_nat (str_count t1 "1") - 1) knot_lines 0 s1 a1)
    as (s2 & a2 & Hrun & Ha2 & _ & Hv); try done; [lia|by rewrite K1| |].
  { intros r ls Hr. rewrite (Hlen r ls Hr). lia. }
  exists s2, a2. rewrite K1 in Hrun.
  assert (run_lines initial_locals (line :: concat knot_lines) self
          = (inr (mk_locals (Some (str_split line)) [] (length (knots self)) 0), s2))
    as Hall.
  { rewrite run_lines_first. erewrite bind_inr by exact Hh. by rewrite Hs. }
  split; [|split; [done|split; [done|]]].
  - unfold read_sph_stream. by erewrite bind_inr.
  - intros ri ls li ln m tok. apply (Hv ri ls li ln m tok).
Qed.

(** X5. A complete stream is read without error. For a header that fits
    the object (or gives it its degree) and names at least one degree, and
    a body with one line per group, knot after knot and degree after degree,
    the line of degree [li] holding [2*li+1] numeric tokens: the read
    succeeds, the loop ends with [ri = len(knots)] and [li = 0], and token
    [m] of the line of knot [ri] and degree [li] is what
    [coefs[ri, c, li, (m+1)/2]] then holds, with [c] = 0 (real) for [m] = 0
    or odd and 1 (imaginary) for even [m > 0]. *)
Theorem X5_complete_stream line knot_lines self t0 t1 t2 t3 more :
  shape_ok self = true →
  str_split line = t0 :: t1 :: t2 :: t3 :: more →
  is_Some (py_int t0) → is_Some (py_int t2) →
  1 ≤ str_count t1 "1" →
  (∀ d, degree self = Some d → d = (Z.of_nat (str_count t1 "1") - 1)%Z) →
  length (knots self) = str_count t3 "1" →
  length knot_lines = length (knots self) →
  (∀ ri ls, knot_lines !! ri = Some ls → length ls = str_count t1 "1") →
  (∀ ri ls li ln, knot_lines !! ri = Some ls → ls !! li = Some ln →
     length (str_split ln) = li * 2 + 1 ∧
     Forall (λ tok, is_Some (py_float tok)) (str_split ln)) →
  ∃ self' a',
    read_sph_stream (line :: concat knot_lines) self = (inr tt, self') ∧
    run_lines initial_locals (line :: concat knot_lines) self
    = (inr (mk_locals (Some (str_split line)) [] (length (knots self)) 0), self') ∧
    coefs self' = Some a' ∧
    ∀ ri ls li ln m tok,
      knot_lines !! ri = Some ls → ls !! li = Some ln →
      str_split ln !! m = Some tok →
      nd_getitem a' ri (token_component m) li (token_order m) = py_float tok.
Proof. apply complete_stream_read. Qed.

(** ** Tokens that are not numbers *)

Lemma decode_app ri li toks1 : ∀ toks2 m self,
  decode ri li m (token_order m) (toks1 ++ toks2) self =
  (decode ri li m (token_order m) toks1 ≫= λ _,
   decode ri li (m + length toks1) (token_order (m + length toks1)) toks2) self.
Proof.
  induction toks1 as [|tok rest IH]; intros toks2 m self.
  - simpl. by rewrite Nat.add_0_r.
  - rewrite <- app_comm_cons. unfold mbind at 1, M_bind at 1.
    rewrite !decode_cons. unfold mbind, M_bind.
    destruct (convert py_float tok self) as [[e|v] s0]; [done|].
    destruct (coefs_setitem _ _ _ _ _ s0) as [[e|[]] s1]; [done|].
    rewrite IH. unfold mbind, M_bind. simpl.
    by replace (m + S (length rest)) with (S m + length rest) by lia.
Qed.

(** X8. Tokens are converted only when their group is complete. A line
    that leaves the group incomplete is accepted whatever its tokens are;
    when the group completes, decoding stops at the first token that
    [float] refuses with ValueError, and the tokens of the group before it
    have been stored by then. *)
Theorem X8_non_numeric_token loc toks self :
  (length (dataline loc ++ toks) < li loc * 2 + 1 →
     data_step loc toks self
     = (inr (mk_locals (header loc) (dataline loc ++ toks) (ri loc) (li loc)), self)) ∧
  (∀ before bad after self1,
     dataline loc ++ toks = before ++ bad :: after →
     length (dataline loc ++ toks) = li loc * 2 + 1 →
     ri loc ≤ length (knots self) →
     decode (ri loc) (li loc) 0 0 before self = (inr tt, self1) →
     py_float bad = None →
     data_step loc toks self = (inl ValueError, self1)).
Proof.
  split; [apply data_step_pending|].
  intros before bad after self1 Hsplit Hlen Hri Hbefore Hbad.
  rewrite data_step_complete by done. rewrite Hsplit.
  change 0 with (token_order 0) at 2. rewrite decode_app.
  erewrite bind_inr by exact Hbefore.
  rewrite decode_cons. unfold mbind, M_bind, convert. by rewrite Hbad.
Qed.

(** ** Blank lines and split lines in the body *)

(** X9. After the header line, blank (whitespace-only) lines are ignored
    wherever they stand: removing them changes neither the outcome nor the
    object. *)
Theorem X9_blank_lines_in_body line body1 blanks body2 self :
  Forall blank blanks →
  read_sph_stream (line :: body1 ++ blanks ++ body2) self
  = read_sph_stream (line :: body1 ++ body2) self.
Proof.
  intros Hb. unfold read_sph_stream, mbind, M_bind.
  rewrite !app_comm_cons, !run_lines_app. unfold mbind, M_bind.
  destruct (run_lines initial_locals (line :: body1) self) as [[e|loc] s] eqn:H;
    [done|].
  apply run_lines_ok_state in H as (_ & Hp & Hh).
  rewrite run_lines_app. by erewrite bind_inr by (by apply run_blank_lines).
Qed.

(** The data branch sees the locals and the tokens only through [header],
    [ri], [li] and the buffer as extended. *)
Lemma data_step_buffer loc1 toks1 loc toks self :
  header loc1 = header loc → ri loc1 = ri loc → li loc1 = li loc →
  dataline loc1 ++ toks1 = dataline loc ++ toks →
  data_step loc1 toks1 self = data_step loc toks self.
Proof. intros Hh Hr Hl Hd. unfold data_step. by rewrite Hh, Hr, Hl, Hd. Qed.

Lemma concat_split_nil part :
  concat (str_split <$> part) = [] → Forall blank part.
Proof.
  induction part as [|p ps IH]; [done|]. simpl.
  intros [Hp Hps]%app_eq_nil. constructor; [done|by apply IH].
Qed.

(** A line that is accepted is accepted, with the same result, when it
    comes broken into several lines. *)
Lemma data_step_split part : ∀ loc toks self loc' self',
  header loc ≠ None → pending_ok loc = true →
  concat (str_split <$> part) = toks →
  data_step loc toks self = (inr loc', self') →
  run_lines loc part self = (inr loc', self').
Proof.
  induction part as [|p ps IH]; intros loc toks self loc' self' Hh Hp Htoks H.
  - simpl in Htoks. subst toks. by rewrite data_step_blank in H.
  - change (concat (str_split <$> p :: ps))
      with (str_split p ++ concat (str_split <$> ps)) in Htoks.
    subst toks. cbn [run_lines].
    pose proof Hp as Hp'. apply Nat.ltb_lt in Hp'.
    destruct (decide (length (dataline loc ++ str_split p) < li loc * 2 + 1))
      as [Hlt|Hge].
    + erewrite bind_inr
        by (rewrite loop_body_data by done; by apply data_step_pending).
      eapply IH; [done|by apply Nat.ltb_lt|done|].
      rewrite <- H. apply data_step_buffer; try done. simpl. by rewrite <- app_assoc.
    + destruct (concat (str_split <$> ps)) as [|tok rest] eqn:Hps.
      * rewrite app_nil_r in H.
        erewrite bind_inr by (rewrite loop_body_data by done; exact H).
        apply data_step_ok in H as [Hp1 Hh1].
        apply run_blank_lines; [congruence|done|by apply concat_split_nil].
      * rewrite data_step_overrun in H; [done|].
        rewrite app_assoc, length_app. simpl. lia.
Qed.

Lemma run_data_lines_split body : ∀ parts loc self loc' self',
  header loc ≠ None → pending_ok loc = true →
  Forall2 (λ ln part, concat (str_split <$> part) = str_split ln) body parts →
  run_lines loc body self = (inr loc', self') →
  run_lines loc (concat parts) self = (inr loc', self').
Proof.
  induction body as [|ln body IH]; intros parts loc self loc' self' Hh Hp Hparts.
  - apply Forall2_nil_inv_l in Hparts as ->. done.
  - apply Forall2_cons_inv_l in Hparts as (part & parts' & Hpart & Hparts & ->).
    simpl. intros (loc1 & s1 & H & H')%bind_inv_inr.
    rewrite loop_body_data in H by done.
    destruct (data_step_ok _ _ _ _ _ H) as [Hp1 Hh1].
    rewrite run_lines_app.
    erewrite bind_inr by (by eapply data_step_split).
    eapply IH; [congruence|done..].
Qed.

(** X10. A data line may always be broken further. If a stream is read
    without error, so is the stream in which each data line is replaced by
    any sequence of lines carrying the same tokens in the same order, and
    the object is the same. (The converse fails: joining lines can overrun
    a group.) *)
Theorem X10_breaking_lines_further line body parts self self' :
  Forall2 (λ ln part, concat (str_split <$> part) = str_split ln) body parts →
  read_sph_stream (line :: body) self = (inr tt, self') →
  read_sph_stream (line :: concat parts) self = (inr tt, self').
Proof.
  intros Hparts. rewrite !read_sph_stream_first.
  intros (h & s0 & Hh & H)%bind_inv_inr.
  apply bind_inv_inr in H as (loc & s & H & [= <-]).
  erewrite bind_inr by done. erewrite bind_inr; [done|].
  by eapply run_data_lines_split.
Qed.

(** ** Reading the same stream again *)

Lemma mixed_radix_split (p A B : nat) :
  p < A * B → ∃ a b, a < A ∧ b < B ∧ p = a * B + b.
Proof.
  intros Hp. assert (B ≠ 0) as HB by (intros ->; lia).
  exists (p / B), (p mod B). split; [|split].
  - apply Nat.Div0.div_lt_upper_bound. lia.
  - by apply Nat.mod_upper_bound.
  - rewrite (Nat.div_mod_eq p B) at 1. lia.
Qed.

(** Every cell of the block is the entry of an index inside the shape. *)
Lemma nd_offset_onto a p :
  p < nd_size a → ∃ i c l m, in_bounds a i c l m = true ∧ nd_offset a i c l m = p.
Proof.
  unfold nd_size, nd_offset. intros Hp.
  apply mixed_radix_split in Hp as (q & m & Hq & Hm & ->).
  apply mixed_radix_split in Hq as (q' & l & Hq' & Hl & ->).
  apply mixed_radix_split in Hq' as (i & c & Hi & Hc & ->).
  exists i, c, l, m. split; [|done]. by apply in_bounds_spec.
Qed.

(** Two full blocks of one shape that read alike inside the shape are the
    same array. *)
Lemma nd_ext a a' :
  nd_valid a = true → nd_valid a' = true →
  dim0 a' = dim0 a → dim1 a' = dim1 a → dim2 a' = dim2 a → dim3 a' = dim3 a →
  (∀ i c l m, in_bounds a i c l m = true →
     nd_getitem a' i c l m = nd_getitem a i c l m) →
  a' = a.
Proof.
  destruct a as [n0 n1 n2 n3 xs], a' as [n0' n1' n2' n3' xs'].
  unfold nd_valid, nd_size. simpl. rewrite !Nat.eqb_eq.
  intros Hv Hv' -> -> -> -> Hget. f_equal.
  apply list_eq. intros p.
  destruct (decide (p < n0 * n1 * n2 * n3)) as [Hp|Hp].
  - destruct (nd_offset_onto (mk_ndarray n0 n1 n2 n3 xs) p Hp)
      as (i & c & l & m & Hb & <-).
    specialize (Hget i c l m Hb). unfold nd_getitem in Hget.
    assert (in_bounds (mk_ndarray n0 n1 n2 n3 xs') i c l m = true) as Hb' by done.
    by rewrite Hb, Hb' in Hget.
  - rewrite !lookup_ge_None_2; [done|lia..].
Qed.

(** The position in its group of a storable entry. *)
Lemma storable_position c l m :
  c < 2 → storable 0 c l m →
  ∃ k, k < l * 2 + 1 ∧ token_component k = c ∧ token_order k = m.
Proof.
  unfold storable, token_component, token_order. intros Hc [Hm Hcm].
  destruct c as [|[|c]]; [| |lia].
  - destruct m as [|m]; [exists 0; split; [lia|done]|].
    exists (2 * S m - 1). split; [lia|].
    destruct (Nat.eqb_spec (2 * S m - 1) 0); [lia|].
    destruct (Nat.eqb_spec ((2 * S m - 1) mod 2) 1); [|lia]. split; [done|lia].
  - exists (2 * m). split; [lia|].
    destruct (Nat.eqb_spec (2 * m) 0); [lia|].
    destruct (Nat.eqb_spec ((2 * m) mod 2) 1); [lia|]. split; [done|lia].
Qed.

(** X11. Reading a complete stream is idempotent: the object a complete
    stream (as in X5) leaves is left exactly as it is by reading the same
    stream into it again. Every entry the reader can store is stored by a
    complete stream, so nothing of the earlier content matters. *)
Theorem X11_rereading_is_idempotent line knot_lines self t0 t1 t2 t3 more self' :
  shape_ok self = true →
  str_split line = t0 :: t1 :: t2 :: t3 :: more →
  is_Some (py_int t0) → is_Some (py_int t2) →
  1 ≤ str_count t1 "1" →
  (∀ d, degree self = Some d → d = (Z.of_nat (str_count t1 "1") - 1)%Z) →
  length (knots self) = str_count t3 "1" →
  length knot_lines = length (knots self) →
  (∀ ri ls, knot_lines !! ri = Some ls → length ls = str_count t1 "1") →
  (∀ ri ls li ln, knot_lines !! ri = Some ls → ls !! li = Some ln →
     length (str_split ln) = li * 2 + 1 ∧
     Forall (λ tok, is_Some (py_float tok)) (str_split ln)) →
  read_sph_stream (line :: concat knot_lines) self = (inr tt, self') →
  read_sph_stream (line :: concat knot_lines) self' = (inr tt, self').
Proof.
  intros Hok Hs H0 H2 Hone Hdeg Hk Hn Hlen Hlines Hread.
  destruct (complete_stream_read line knot_lines self t0 t1 t2 t3 more)
    as (s1 & a1 & Hread1 & _ & Ha1 & Hv1); try done.
  assert (s1 = self') as -> by congruence.
  destruct (read_sph_stream_keeps _ _ _ _ Hok Hread) as (Hok' & K' & _).
  destruct (read_ok_agrees_with_header _ _ _ _ Hok Hread)
    as (u0 & u1 & u2 & u3 & umore & b & Hs' & Hd' & _).
  assert (u1 = t1) as -> by congruence. clear Hs' b.
  destruct (complete_stream_read line knot_lines self' t0 t1 t2 t3 more)
    as (s2 & a2 & Hread2 & _ & Ha2 & Hv2); try done.
  { intros d Hd. congruence. }
  { congruence. }
  { congruence. }
  rewrite Hread2. f_equal.
  destruct (read_sph_stream_stores _ _ _ _ _ Ha1 Hread2) as (K & D & I & O & Hst).
  rewrite Ha1 in Hst. destruct Hst as (a2' & Ea2 & E0 & E1 & E2 & E3 & Ev & Hfr).
  assert (a2' = a2) as -> by congruence.
  destruct (shape_ok_spec _ _ Hok' Ha1) as (d & Hd & Hval1 & F0 & F1 & F2 & F3).
  assert (d = (Z.of_nat (str_count t1 "1") - 1)%Z) as -> by congruence.
  assert (a2 = a1) as ->.
  { apply nd_ext; try done; [congruence|].
    intros i c l m Hb.
    destruct (decide (storable i c l m)) as [Hsto|Hsto]; [|by apply Hfr].
    apply in_bounds_spec in Hb as (Hi & Hc & Hl & Hm).
    rewrite F0, K' in Hi. rewrite F1 in Hc. rewrite F2 in Hl.
    replace (Z.to_nat (Z.of_nat (str_count t1 "1") - 1 + 1))
      with (str_count t1 "1") in Hl by lia.
    destruct (storable_position c l m Hc) as (k & Hk' & <- & <-); [done|].
    destruct (lookup_lt_is_Some_2 knot_lines i) as [ls Hls]; [lia|].
    destruct (lookup_lt_is_Some_2 ls l) as [ln Hln];
      [by rewrite (Hlen i ls Hls)|].
    destruct (Hlines i ls l ln Hls Hln) as [Hltok _].
    destruct (lookup_lt_is_Some_2 (str_split ln) k) as [tok Htok]; [lia|].
    rewrite (Hv2 i ls l ln k tok), (Hv1 i ls l ln k tok); done. }
  destruct self', s2. simpl in *. by subst.
Qed.

(** ** A degree given with a file *)

(** The header branch on the object the constructor allocates for the
    degree the header names: it fails as on the blank object, and when it
    succeeds the two objects are the same from then on. *)
Lemma read_header_on_allocated line t1 self :
  str_split line !! 1 = Some t1 →
  coefs self = None → degree self = None →
  read_header line (allocated (str_count t1 "1") self) =
    match read_header line self with
    | (inl e, _) => (inl e, allocated (str_count t1 "1") self)
    | (inr h, s) => (inr h, s)
    end.
Proof.
  intros Ht1 Hc Hd.
  destruct (str_split line) as [|t0 [|u1 [|t2 [|t3 more]]]] eqn:Hs;
    try done; injection Ht1 as ->.
  1-2: unfold read_header; rewrite Hs; unfold_M; simpl;
    destruct (py_int t0); simpl; [|done]; rewrite Hd, Z.eqb_refl; simpl; try done;
    by destruct (py_int t2).
  destruct (py_int t0) as [n0|] eqn:H0;
    [|unfold read_header; rewrite Hs; unfold_M; simpl; by rewrite H0].
  destruct (py_int t2) as [n2|] eqn:H2;
    [|unfold read_header; rewrite Hs; unfold_M; simpl;
      rewrite H0; simpl; rewrite Hd, Z.eqb_refl; simpl; by rewrite H2].
  rewrite !(read_header_tokens _ _ _ _ _ _ _ _ _ Hs H0 H2). simpl.
  rewrite Hc, Hd, Z.eqb_refl. simpl.
  by destruct (length (knots self) =? str_count t3 "1").
Qed.

(** X12. A degree supplied to the constructor together with a file is
    redundant when it is the degree the header names: the constructor then
    has the same outcome as without the degree, and on success the same
    object. *)
Theorem X12_matching_degree_is_redundant line rest t1 d ks r_in r_out :
  str_split line !! 1 = Some t1 →
  d = (Z.of_nat (str_count t1 "1") - 1)%Z →
  (__init__ (Some (line :: rest)) (Some d) ks r_in r_out).1
  = (__init__ (Some (line :: rest)) None ks r_in r_out).1 ∧
  ((__init__ (Some (line :: rest)) None ks r_in r_out).1 = inr tt →
   __init__ (Some (line :: rest)) (Some d) ks r_in r_out
   = __init__ (Some (line :: rest)) None ks r_in r_out).
Proof.
  intros Ht1 ->. unfold __init__, read_sph_file.
  set (self0 := mk_PyRTS (default DEFAULT_KNOTS ks) None None None None).
  set (n := str_count t1 "1").
  erewrite (bind_inr _ _ self0 tt (allocated n self0)).
  2:{ exact (allocate_after_header n self0). }
  erewrite (bind_inr _ _ self0 tt self0) by done.
  pose proof (read_header_on_allocated line t1 self0 Ht1 eq_refl eq_refl) as Ha.
  fold n in Ha.
  pose proof (read_sph_stream_first line rest self0) as E0.
  pose proof (read_sph_stream_first line rest (allocated n self0)) as E1.
  unfold mbind at 1, M_bind at 1 in E0. unfold mbind at 1, M_bind at 1 in E1.
  rewrite Ha in E1. clear Ha.
  destruct (read_header line self0) as [[e|h] s].
  - rewrite (bind_inl _ _ _ _ _ E0), (bind_inl _ _ _ _ _ E1). by split.
  - rewrite <- E0 in E1. clear E0.
    assert (∀ B (k : unit → M B),
      (read_sph_stream (line :: rest) ≫= k) (allocated n self0) =
      (read_sph_stream (line :: rest) ≫= k) self0) as ->; [|done].
    intros B k. unfold mbind, M_bind. by rewrite E1.
Qed.

(** ** The loop invariant *)

(** X13. At every successful exit of the loop, on an object that keeps the
    shape invariant and after at least the header line: [ri] is at most
    [len(knots)], [li] is 0 or at most the degree, [li] is 0 once [ri] has
    reached [len(knots)], and the pending buffer is shorter than the group
    it belongs to. *)
Theorem X13_loop_invariant line rest self loc self' :
  shape_ok self = true →
  run_lines initial_locals (line :: rest) self = (inr loc, self') →
  ri loc ≤ length (knots self') ∧
  (li loc = 0 ∨ ∃ d, degree self' = Some d ∧ (Z.of_nat (li loc) ≤ d)%Z) ∧
  (ri loc = length (knots self') → li loc = 0) ∧
  length (dataline loc) < li loc * 2 + 1.
Proof.
  intros Hok. rewrite run_lines_first.
  intros (h & s1 & Hh & Hrun)%bind_inv_inr.
  assert (shape_ok s1 = true) as Hok1.
  { apply read_header_inv in Hh as [(? & ? & _)|[_ [(? & _ & ->)|(_ & n & ->)]]];
      [done|done|apply shape_ok_allocated]. }
  apply read_header_ok in Hh as [_ Hc1]. clear Hok self line.
  assert (∀ lines loc0 s0,
    header loc0 ≠ None → shape_ok s0 = true → is_Some (coefs s0) →
    pending_ok loc0 = true →
    ri loc0 ≤ length (knots s0) →
    (li loc0 = 0 ∨ ∃ d, degree s0 = Some d ∧ (Z.of_nat (li loc0) ≤ d)%Z) →
    (ri loc0 = length (knots s0) → li loc0 = 0) →
    run_lines loc0 lines s0 = (inr loc, self') →
    ri loc ≤ length (knots self') ∧
    (li loc = 0 ∨ ∃ d, degree self' = Some d ∧ (Z.of_nat (li loc) ≤ d)%Z) ∧
    (ri loc = length (knots self') → li loc = 0) ∧
    length (dataline loc) < li loc * 2 + 1) as Hinv.
  { clear. induction lines as [|ln lines IH];
      intros loc0 s0 Hh Hok [a Ha] Hp Hri Hli Hend.
    - intros [= <- <-]. by apply Nat.ltb_lt in Hp.
    - simpl. intros (loc1 & s2 & H & H')%bind_inv_inr.
      rewrite loop_body_data in H by done.
      pose proof (data_step_stores _ _ _ _ _ H) as Hst.
      pose proof (data_step_ok _ _ _ _ _ H) as [Hp1 Hh1].
      pose proof (shape_ok_stores _ _ _ Hst Hok) as Hok2.
      destruct Hst as (K & D & _ & _ & Hst). rewrite Ha in Hst.
      destruct Hst as (a' & Ha' & _).
      destruct (shape_ok_spec _ _ Hok Ha) as (d & Ed & _ & E0 & _).
      assert (ri loc1 ≤ length (knots s0) ∧
              (li loc1 = 0 ∨ (Z.of_nat (li loc1) ≤ d)%Z) ∧
              (ri loc1 = length (knots s0) → li loc1 = 0)) as (I1 & I2 & I3).
      { clear IH H'.
        destruct (data_step_cases loc0 (str_split ln) s0)
          as [Hc|[Hc|[[Hc1 Hc2]|[Hc1 Hc2]]]].
        - rewrite data_step_pending in H by done. injection H as <- _. simpl.
          split; [done|]. split; [|done].
          destruct Hli as [?|(d' & Hd' & ?)]; [by left|right; congruence].
        - by rewrite data_step_overrun in H.
        - lia.
        - rewrite data_step_complete in H by done.
          destruct (decode _ _ _ _ _ s0) as [[e|[]] s'] eqn:Hdec; [done|].
          destruct (dataline loc0 ++ str_split ln) as [|tok toks];
            [simpl in Hc1; lia|].
          pose proof (decode_ok_knot_index _ _ _ _ _ _ _ _ _ Ha Hdec) as Hlt.
          change 0 with (token_order 0) in Hdec at 2.
          apply decode_stores in Hdec as (_ & Hdeg & _).
          rewrite Hdeg, Ed in H. injection H as <- _. unfold advance.
          destruct (Z.ltb_spec d (Z.of_nat (li loc0 + 1))); simpl.
          + split; [lia|]. split; [by left|done].
          + split; [lia|]. split; [right; lia|lia]. }
      eapply (IH loc1 s2); [congruence|done|by rewrite Ha'; eauto|done| | | |done];
        rewrite ?K, ?D; [done| |done].
      destruct I2 as [?|?]; [by left|right; eauto]. }
  eapply Hinv; [| | | | | | |exact Hrun]; simpl; try done; [lia|by left].
Qed.
End Reader.

Set Default Proof Using "Type".

(** * The conversions as parameters

    The reader only calls [float] on body tokens and [int] on the first and
    third header token: two pairs of conversions that agree there read a
    stream alike. *)

Lemma decode_ext pf pf' ri li toks :
  Forall (λ tok, pf tok = pf' tok) toks →
  ∀ m mi self, decode pf ri li m mi toks self = decode pf' ri li m mi toks self.
Proof.
  induction 1 as [|tok rest Htok _ IH]; intros m mi self; [done|].
  cbn [decode]. unfold mbind, M_bind, convert. rewrite Htok.
  destruct (m =? 0); [|destruct (m mod 2 =? 1)];
    (destruct (pf' tok) as [v|]; [|done]); simpl;
    (destruct (coefs_setitem _ _ _ _ _ self) as [[e|[]] s1]; [done|]); apply IH.
Qed.

Lemma data_step_ext pf pf' loc toks self :
  Forall (λ tok, pf tok = pf' tok) (dataline loc ++ toks) →
  data_step pf loc toks self = data_step pf' loc toks self.
Proof.
  intros Hagree. unfold data_step.
  destruct (length (dataline loc ++ toks) =? li loc * 2 + 1); [|done].
  unfold mbind, M_bind. simpl.
  destruct (py_assert _ _ self) as [[e|[]] s1]; [done|].
  by rewrite (decode_ext pf pf').
Qed.

Lemma read_header_ext pi pi' line self :
  (∀ i tok, i = 0 ∨ i = 2 → str_split line !! i = Some tok → pi tok = pi' tok) →
  read_header pi line self = read_header pi' line self.
Proof.
  intros Hagree. unfold read_header.
  destruct (str_split line) as [|t0 [|t1 [|t2 rest]]]; try done.
  - unfold_M. simpl. by rewrite (Hagree 0 t0) by eauto.
  - unfold_M. simpl. rewrite (Hagree 0 t0) by eauto.
    by destruct (pi' t0).
  - unfold_M. simpl. rewrite (Hagree 0 t0), (Hagree 2 t2) by eauto. done.
Qed.

Lemma run_data_lines_ext pi pi' pf pf' lines : ∀ loc self,
  header loc ≠ None →
  Forall (λ tok, pf tok = pf' tok) (dataline loc) →
  Forall (λ line, Forall (λ tok, pf tok = pf' tok) (str_split line)) lines →
  run_lines pi pf loc lines self = run_lines pi' pf' loc lines self.
Proof.
  induction lines as [|line lines IH]; intros loc self Hh Hd Hl; [done|].
  apply Forall_cons in Hl as [Hline Hl]. simpl.
  unfold mbind, M_bind. rewrite !loop_body_data by done.
  rewrite (data_step_ext pf pf') by (by apply Forall_app).
  destruct (data_step pf' loc (str_split line) self) as [[e|loc1] s1] eqn:Hstep; [done|].
  destruct (data_step_ok pi' pf' _ _ _ _ _ Hstep) as [_ Hh1].
  apply IH; [congruence| |done].
  destruct (data_step_dataline pi' pf' _ _ _ _ _ Hstep) as [->| ->];
    [done|by apply Forall_app].
Qed.

Lemma read_sph_stream_ext pi pi' pf pf' line body self :
  (∀ i tok, i = 0 ∨ i = 2 → str_split line !! i = Some tok → pi tok = pi' tok) →
  Forall (λ line, Forall (λ tok, pf tok = pf' tok) (str_split line)) body →
  read_sph_stream pi pf (line :: body) self = read_sph_stream pi' pf' (line :: body) self.
Proof.
  intros Hh Hb. rewrite !read_sph_stream_first. unfold mbind, M_bind.
  rewrite (read_header_ext pi pi') by done.
  destruct (read_header pi' line self) as [[e|h] s1]; [done|].
  by rewrite (run_data_lines_ext pi pi' pf pf').
Qed.

(** * The end-to-end scenario *)

(** C1. With the default 21 knots and degree 1, the stream of header
    [1 11 21 1...1] and, for each knot, the lines [0.5] and [0.1 0.2 0.3]
    is read without error and leaves, at every knot [k],
    [coefs[k,0,0,0] = 0.5], [coefs[k,0,1,0] = 0.1], [coefs[k,0,1,1] = 0.2]
    and [coefs[k,1,1,1] = 0.3] (the values [float] gives for those texts).
    In general a complete group of [2*li+1] numeric tokens is decoded with
    token 0 as the real part of order 0, and for [j ≥ 1] token [2j-1] as the
    real part and token [2j] as the imaginary part of the same order [j]. *)
Theorem C1_token_placement (py_int : string → option Z) (py_float : string → option float) :
  (∀ n1 n21 a b c d r_in r_out,
     py_int "1" = Some n1 → py_int "21" = Some n21 →
     py_float "0.5" = Some a → py_float "0.1" = Some b →
     py_float "0.2" = Some c → py_float "0.3" = Some d →
     ∃ self0 self' arr,
       __init__ py_int py_float None (Some 1%Z) None r_in r_out = (inr tt, self0) ∧
       read_sph_stream py_int py_float scenario_stream self0 = (inr tt, self') ∧
       coefs self' = Some arr ∧
       ∀ k, k < 21 →
         nd_getitem arr k 0 0 0 = Some a ∧ nd_getitem arr k 0 1 0 = Some b ∧
         nd_getitem arr k 0 1 1 = Some c ∧ nd_getitem arr k 1 1 1 = Some d) ∧
  (∀ self a ri li toks,
     coefs self = Some a → nd_valid a = true →
     in_bounds a ri 1 li li = true →
     length toks = li * 2 + 1 →
     Forall (λ tok, is_Some (py_float tok)) toks →
     ∃ self' a',
       decode py_float ri li 0 0 toks self = (inr tt, self') ∧ coefs self' = Some a' ∧
       (∀ tok, toks !! 0 = Some tok → nd_getitem a' ri 0 li 0 = py_float tok) ∧
       (∀ j tok, 1 ≤ j → toks !! (2 * j - 1) = Some tok →
          nd_getitem a' ri 0 li j = py_float tok) ∧
       (∀ j tok, 1 ≤ j → toks !! (2 * j) = Some tok →
          nd_getitem a' ri 1 li j = py_float tok)).
Proof.
  split; [|apply (decode_group py_int py_float)].
  intros n1 n21 a b c d r_in r_out H1 H21 Ha Hb Hc Hd.
  pose (ti := λ s : string,
          if String.eqb s "1" then Some n1
          else if String.eqb s "21" then Some n21 else None).
  pose (tf := λ s : string,
          if String.eqb s "0.5" then Some a
          else if String.eqb s "0.1" then Some b
          else if String.eqb s "0.2" then Some c
          else if String.eqb s "0.3" then Some d else None).
  eexists _, _, _. split; [vm_compute; reflexivity|].
  split; [|split].
  - unfold scenario_stream.
    rewrite (read_sph_stream_ext py_int ti py_float tf).
    + vm_compute. reflexivity.
    + intros i tok [-> | ->]; vm_compute; intros [= <-]; done.
    + apply Forall_concat, Forall_replicate. unfold scenario_knot.
      assert (str_split (text_line "0.5") = ["0.5"]) as E1 by reflexivity.
      assert (str_split (text_line "0.1 0.2 0.3") = ["0.1"; "0.2"; "0.3"]) as E2
        by reflexivity.
      repeat first [rewrite E1 | rewrite E2 | apply Forall_cons_2 | apply Forall_nil_2].
      * by rewrite Ha.
      * by rewrite Hb.
      * by rewrite Hc.
      * by rewrite Hd.
  - reflexivity.
  - intros k Hk. do 21 (destruct k as [|k]; [vm_compute; done|]). lia.
Qed.

(** * The reader at work

    Runs on concrete streams, with [int_of_decimal] and [float_of_decimal]
    for the conversions. *)

Example init_scenario_model :
  __init__ int_of_decimal float_of_decimal None (Some 1%Z) None
    default_inner_radius default_outer_radius
  = (inr tt, scenario_model).
Proof. reflexivity. Qed.

Example init_two_knots :
  __init__ int_of_decimal float_of_decimal None (Some 1%Z)
    (Some [1.0; -1.0]%float) default_inner_radius default_outer_radius
  = (inr tt, two_knots).
Proof. reflexivity. Qed.

Example init_without_shape :
  (__init__ int_of_decimal float_of_decimal None None None
     default_inner_radius default_outer_radius).1
  = inl (AssertionError "You must provide a filename or degree").
Proof. reflexivity. Qed.

Example init_from_file :
  ∃ self,
    __init__ int_of_decimal float_of_decimal (Some two_knots_stream) None
      (Some [1.0; -1.0]%float) default_inner_radius default_outer_radius
    = (inr tt, self) ∧
    degree self = Some 1%Z ∧
    (read_sph_stream int_of_decimal float_of_decimal two_knots_stream two_knots).2
    = self.
Proof. eexists. split; [vm_compute; reflexivity|]. split; reflexivity. Qed.

Example used_degree_of_111 : (Z.of_nat (str_count "111" "1") - 1)%Z = 2%Z.
Proof. reflexivity. Qed.

(** The scenario of C1 with the decimal conversions: the four entries of
    every knot are the doubles [0.5], [0.1], [0.2] and [0.3]. *)
Lemma C1_scenario_witness :
  ∃ self0 self' arr,
    __init__ int_of_decimal float_of_decimal None (Some 1%Z) None
      default_inner_radius default_outer_radius
    = (inr tt, self0) ∧
    read_sph_stream int_of_decimal float_of_decimal scenario_stream self0
    = (inr tt, self') ∧
    coefs self' = Some arr ∧
    ∀ k, k < 21 →
      nd_getitem arr k 0 0 0 = Some 0.5%float ∧
      nd_getitem arr k 0 1 0 = Some 0.1%float ∧
      nd_getitem arr k 0 1 1 = Some 0.2%float ∧
      nd_getitem arr k 1 1 1 = Some 0.3%float.
Proof.
  apply (proj1 (C1_token_placement int_of_decimal float_of_decimal)
           1%Z 21%Z 0.5%float 0.1%float 0.2%float 0.3%float);
    vm_compute; reflexivity.
Defined.

(** The scenario stream without its last token (the final group of the
    final knot is one token short) is read without any error. *)
Lemma C2_counterexample :
  (∃ self',
     read_sph_stream int_of_decimal float_of_decimal truncated_stream scenario_model
     = (inr tt, self')) ∧
  ¬ raises (read_sph_stream int_of_decimal float_of_decimal truncated_stream)
      scenario_model.
Proof.
  assert (∃ self',
    read_sph_stream int_of_decimal float_of_decimal truncated_stream scenario_model
    = (inr tt, self')) as [s Hs] by (eexists; vm_compute; reflexivity).
  split; [by exists s|]. intros (e & s' & H). congruence.
Qed.

(** The two-knot stream cut inside its second group. *)
Lemma C2_witness :
  ∃ self1,
    read_sph_stream int_of_decimal float_of_decimal
      (two_knots_header :: take 3 two_knots_body) two_knots
    = (inr tt, self1) ∧
    read_sph_stream int_of_decimal float_of_decimal
      (two_knots_header :: take 3 two_knots_body ++ [text_line "0.1 0.2"])
      two_knots
    = (inr tt, self1).
Proof.
  eapply (proj2 (C2_truncation_is_silent int_of_decimal float_of_decimal)
            two_knots_header (take 3 two_knots_body) (text_line "0.1 0.2 0.3")
            (text_line "0.1 0.2") ["0.1"; "0.2"] "0.3" two_knots).
  - vm_compute. reflexivity.
  - reflexivity.
  - reflexivity.
Defined.

(** A header for degree 2 read into an object of degree 1. *)
Lemma C3_witness :
  ∃ e, shape_mismatch e ∧
    read_sph_stream int_of_decimal float_of_decimal
      (text_line "2 111 2 11" :: two_knots_body) two_knots
    = (inl e, two_knots).
Proof.
  eapply (C3_header_mismatch_raises int_of_decimal float_of_decimal
            (text_line "2 111 2 11") two_knots_body "2" "111" "2" "11" [] 2%Z 2%Z).
  - reflexivity.
  - reflexivity.
  - reflexivity.
  - right. exists 1%Z. split; [reflexivity|]. vm_compute. discriminate.
Defined.

(** Two tokens on the first data line, where the group of degree 0 takes
    one; and the line [0.2 0.3] arriving at the group of knot 0 and degree 1
    with [0.1] pending: the three tokens are stored as
    [coefs[0,0,1,0]], [coefs[0,0,1,1]] and [coefs[0,1,1,1]], the buffer is
    emptied and the loop moves on to knot 1. *)
Lemma C4_witness :
  read_sph_stream int_of_decimal float_of_decimal
    ([two_knots_header] ++ text_line "0.5 0.1" :: [text_line "0.2"]) two_knots
  = (inl (AssertionError "Too much data"), two_knots) ∧
  ∃ self' a',
    data_step float_of_decimal
      (mk_locals (Some ["1"; "11"; "2"; "11"]) ["0.1"] 0 1) ["0.2"; "0.3"] two_knots
    = (inr (mk_locals (Some ["1"; "11"; "2"; "11"]) [] 1 0), self') ∧
    coefs self' = Some a' ∧
    nd_getitem a' 0 0 1 0 = float_of_decimal "0.1" ∧
    nd_getitem a' 0 0 1 1 = float_of_decimal "0.2" ∧
    nd_getitem a' 0 1 1 1 = float_of_decimal "0.3" ∧
    is_Some (float_of_decimal "0.3") ∧
    nd_getitem a' 0 0 0 0 = nd_getitem (np_zeros 2 2 2 2) 0 0 0 0.
Proof.
  split.
  - eapply (proj1 (proj2 (C4_overrun_and_completion int_of_decimal float_of_decimal))
              [two_knots_header] (text_line "0.5 0.1") [text_line "0.2"] two_knots
              (mk_locals (Some ["1"; "11"; "2"; "11"]) [] 0 0) two_knots).
    + reflexivity.
    + discriminate.
    + vm_compute. lia.
  - destruct (proj2 (proj2 (C4_overrun_and_completion int_of_decimal float_of_decimal))
                (mk_locals (Some ["1"; "11"; "2"; "11"]) ["0.1"] 0 1) ["0.2"; "0.3"]
                two_knots (np_zeros 2 2 2 2) 1%Z)
      as (self' & a' & _ & Hstep & _ & Ha' & Hvals & Hframe).
    + reflexivity.
    + reflexivity.
    + reflexivity.
    + reflexivity.
    + simpl. lia.
    + simpl. lia.
    + repeat constructor; vm_compute; eauto.
    + exists self', a'. split; [exact Hstep|]. split; [exact Ha'|].
      split; [exact (proj2 (Hvals 0 "0.1" eq_refl))|].
      split; [exact (proj2 (Hvals 1 "0.2" eq_refl))|].
      split; [exact (proj2 (Hvals 2 "0.3" eq_refl))|].
      split; [exact (proj1 (Hvals 2 "0.3" eq_refl))|].
      destruct Hframe as (_ & _ & _ & _ & a2 & Ha2 & _ & _ & _ & _ & _ & Hkeep).
      rewrite Ha' in Ha2. injection Ha2 as <-.
      apply Hkeep. simpl. lia.
Defined.

(** The header [1 11 2 11] read into an object without degree. *)
Lemma C5_witness :
  read_header int_of_decimal two_knots_header two_knots_unset =
    (inr ["1"; "11"; "2"; "11"],
     mk_PyRTS [1.0; -1.0]%float (Some 1%Z) (Some (np_zeros 2 2 2 2)) None None).
Proof.
  apply (proj1 (C5_header_decoding int_of_decimal float_of_decimal
                  two_knots_header "1" "11" "2" "11" 1%Z 2%Z two_knots_unset
                  eq_refl eq_refl eq_refl));
    reflexivity.
Defined.

(** The two-knot stream read into the two-knot object. *)
Lemma C6_witness :
  ∃ a',
    coefs (read_sph_stream int_of_decimal float_of_decimal two_knots_stream two_knots).2
    = Some a' ∧
    ∀ i c l m, l < m →
      nd_getitem a' i c l m = nd_getitem (np_zeros 2 2 2 2) i c l m.
Proof.
  eapply (proj1 (proj2 (C6_above_diagonal_untouched int_of_decimal float_of_decimal))
            two_knots_stream two_knots
            (read_sph_stream int_of_decimal float_of_decimal two_knots_stream two_knots).1).
  - reflexivity.
  - vm_compute. reflexivity.
Defined.

(** The same body tokens, once one group per line and once with the two
    groups of the first knot on one line: one is read, the other fails. *)
Lemma C7_counterexample :
  concat (str_split <$> two_knots_body)
  = concat (str_split <$> two_knots_body_merged) ∧
  (∃ self',
     read_sph_stream int_of_decimal float_of_decimal
       (two_knots_header :: two_knots_body) two_knots
     = (inr tt, self')) ∧
  read_sph_stream int_of_decimal float_of_decimal
    (two_knots_header :: two_knots_body_merged) two_knots
  = (inl (AssertionError "Too much data"), two_knots).
Proof.
  split; [reflexivity|]. split; [eexists|]; vm_compute; reflexivity.
Qed.

(** The two-knot body one group per line and one token per line. *)
Lemma C7_witness :
  (h ← read_header int_of_decimal two_knots_header;
   feed_tokens float_of_decimal (mk_locals (Some h) [] 0 0)
     (concat (str_split <$> two_knots_body_fine));;
   mret tt) two_knots
  = (inr tt,
     (read_sph_stream int_of_decimal float_of_decimal two_knots_stream two_knots).2) ∧
  (∀ s2,
     read_sph_stream int_of_decimal float_of_decimal
       (two_knots_header :: two_knots_body_fine) two_knots
     = (inr tt, s2) →
     s2 = (read_sph_stream int_of_decimal float_of_decimal two_knots_stream two_knots).2).
Proof.
  apply (C7_line_breaks int_of_decimal float_of_decimal
           two_knots_header two_knots_body two_knots_body_fine two_knots).
  - vm_compute. reflexivity.
  - reflexivity.
Defined.

(** One more number, or two, after the complete two-knot stream. *)
Lemma C8_counterexample :
  ∃ self',
    read_sph_stream int_of_decimal float_of_decimal two_knots_stream two_knots
    = (inr tt, self') ∧
    read_sph_stream int_of_decimal float_of_decimal
      (two_knots_stream ++ [text_line "0.7"]) two_knots
    = (inl IndexError, self') ∧
    read_sph_stream int_of_decimal float_of_decimal
      (two_knots_stream ++ [text_line "0.7 0.8"]) two_knots
    = (inl (AssertionError "Too much data"), self').
Proof.
  eexists. split; [vm_compute; reflexivity|]. split; vm_compute; reflexivity.
Qed.

(** The complete two-knot stream: [ri] is 2, the number of knots. *)
Lemma C8_witness :
  (∀ extra, Forall blank extra →
     read_sph_stream int_of_decimal float_of_decimal
       (two_knots_stream ++ extra) two_knots
     = (inr tt,
        (read_sph_stream int_of_decimal float_of_decimal two_knots_stream two_knots).2)) ∧
  (∀ blanks line rest, Forall blank blanks → ¬ blank line →
     ∃ e,
       read_sph_stream int_of_decimal float_of_decimal
         (two_knots_stream ++ blanks ++ line :: rest) two_knots
       = (inl e,
          (read_sph_stream int_of_decimal float_of_decimal two_knots_stream two_knots).2)).
Proof.
  eapply (C8_input_after_last_group int_of_decimal float_of_decimal
            two_knots_stream two_knots
            (mk_locals (Some ["1"; "11"; "2"; "11"]) [] 2 0)).
  - reflexivity.
  - vm_compute. reflexivity.
  - discriminate.
  - reflexivity.
  - reflexivity.
Defined.

(** An empty line before the two-knot stream: the stream alone is read,
    with the empty line in front the reader raises on that line. *)
Lemma C9_counterexample :
  blank newline ∧
  read_sph_stream int_of_decimal float_of_decimal
    (newline :: two_knots_stream) two_knots
  = (inl IndexError, two_knots) ∧
  ∃ self',
    read_sph_stream int_of_decimal float_of_decimal two_knots_stream two_knots
    = (inr tt, self').
Proof.
  split; [reflexivity|]. split; [|eexists]; vm_compute; reflexivity.
Qed.

Lemma C9_witness :
  read_sph_stream int_of_decimal float_of_decimal
    (newline :: two_knots_stream) two_knots
  = (inl IndexError, two_knots).
Proof.
  apply (proj2 (C9_header_is_first_line int_of_decimal float_of_decimal
                  newline two_knots_stream two_knots)).
  reflexivity.
Defined.

(** Knots outside [-1, 1] and not monotonic, and no knots at all. *)
Lemma C10_witness :
  __init__ int_of_decimal float_of_decimal None (Some 1%Z)
    (Some [0.5; 7.25; -3.0]%float) default_inner_radius default_outer_radius
  = (inr tt,
     mk_PyRTS [0.5; 7.25; -3.0]%float (Some 1%Z) (Some (np_zeros 3 2 2 2))
       (Some default_inner_radius) (Some default_outer_radius)).
Proof.
  apply (proj1 (proj2 (C10_knots_not_validated int_of_decimal float_of_decimal
                         None (Some 1%Z) [0.5; 7.25; -3.0]%float
                         default_inner_radius default_outer_radius)) 1%Z).
  lia.
Defined.

Example init_empty_knots :
  __init__ int_of_decimal float_of_decimal None (Some 1%Z) (Some [])
    default_inner_radius default_outer_radius
  = (inr tt,
     mk_PyRTS [] (Some 1%Z) (Some (np_zeros 0 2 2 2))
       (Some default_inner_radius) (Some default_outer_radius)).
Proof. reflexivity. Qed.

(** * The added properties at work *)

(** X1 on a stream that stores one token and then fails: ["0.5"] is stored,
    the next line overruns its group. *)
Lemma X1_witness :
  ∃ self',
    read_sph_stream int_of_decimal float_of_decimal
      [two_knots_header; text_line "0.5"; text_line "0.1 0.2 0.3 0.4"] two_knots
    = (inl (AssertionError "Too much data"), self') ∧
    knots self' = knots two_knots ∧ degree self' = degree two_knots ∧
    inner_radius self' = inner_radius two_knots ∧
    outer_radius self' = outer_radius two_knots ∧
    ∃ a', coefs self' = Some a' ∧
      (dim0 a', dim1 a', dim2 a', dim3 a') = (2, 2, 2, 2) ∧
      (∀ i c l m, ¬ storable i c l m →
         nd_getitem a' i c l m = nd_getitem (np_zeros 2 2 2 2) i c l m) ∧
      (∀ i l, nd_getitem a' i 1 l 0 = nd_getitem (np_zeros 2 2 2 2) i 1 l 0).
Proof.
  eexists. split; [vm_compute; reflexivity|].
  eapply (X1_reader_only_stores_coefficients int_of_decimal float_of_decimal
            [two_knots_header; text_line "0.5"; text_line "0.1 0.2 0.3 0.4"]
            two_knots (np_zeros 2 2 2 2)
            (inl (AssertionError "Too much data"))).
  - reflexivity.
  - vm_compute. reflexivity.
Defined.

(** X2 on the constructor given the two-knot file and no degree. *)
Lemma X2_witness :
  ∃ self,
    __init__ int_of_decimal float_of_decimal (Some two_knots_stream) None
      (Some [1.0; -1.0]%float) default_inner_radius default_outer_radius
    = (inr tt, self) ∧
    knots self = [1.0; -1.0]%float ∧
    shape_ok self = true ∧ is_Some (coefs self) ∧ is_Some (degree self) ∧
    inner_radius self = Some default_inner_radius ∧
    outer_radius self = Some default_outer_radius.
Proof.
  eexists. split; [vm_compute; reflexivity|].
  apply (X2_constructed_object_is_well_shaped int_of_decimal float_of_decimal
           (Some two_knots_stream) None (Some [1.0; -1.0]%float)
           default_inner_radius default_outer_radius).
  vm_compute. reflexivity.
Defined.

(** X3 on a file without any line. *)
Lemma X3_witness :
  (__init__ int_of_decimal float_of_decimal (Some []) None None
     default_inner_radius default_outer_radius).1
  = inl (AssertionError "You must provide a filename or degree").
Proof.
  apply (proj2 (X3_no_shape_information int_of_decimal float_of_decimal
                  (Some []) None None default_inner_radius default_outer_radius)).
  split; [reflexivity|]. right. reflexivity.
Defined.

(** X4 on the two-knot stream read into the object without degree. *)
Lemma X4_witness :
  ∃ self',
    read_sph_stream int_of_decimal float_of_decimal two_knots_stream two_knots_unset
    = (inr tt, self') ∧
    ∃ t0 t1 t2 t3 more a',
      str_split two_knots_header = t0 :: t1 :: t2 :: t3 :: more ∧
      degree self' = Some (Z.of_nat (str_count t1 "1") - 1)%Z ∧
      length (knots self') = str_count t3 "1" ∧
      coefs self' = Some a' ∧
      (dim0 a', dim1 a', dim2 a', dim3 a')
      = (str_count t3 "1", 2, str_count t1 "1", str_count t1 "1").
Proof.
  eexists. split; [vm_compute; reflexivity|].
  apply (X4_object_agrees_with_header int_of_decimal float_of_decimal
           two_knots_header two_knots_body two_knots_unset).
  - reflexivity.
  - vm_compute. reflexivity.
Defined.

(** X5 on the two-knot stream: two knots, two lines each. *)
Lemma X5_witness :
  ∃ self' a',
    read_sph_stream int_of_decimal float_of_decimal
      (two_knots_header :: concat (replicate 2 scenario_knot)) two_knots
    = (inr tt, self') ∧
    run_lines int_of_decimal float_of_decimal initial_locals
      (two_knots_header :: concat (replicate 2 scenario_knot)) two_knots
    = (inr (mk_locals (Some (str_split two_knots_header)) []
              (length (knots two_knots)) 0), self') ∧
    coefs self' = Some a' ∧
    ∀ ri ls li ln m tok,
      replicate 2 scenario_knot !! ri = Some ls → ls !! li = Some ln →
      str_split ln !! m = Some tok →
      nd_getitem a' ri (token_component m) li (token_order m)
      = float_of_decimal tok.
Proof.
  apply (X5_complete_stream int_of_decimal float_of_decimal two_knots_header
           (replicate 2 scenario_knot) two_knots "1" "11" "2" "11" []).
  - reflexivity.
  - reflexivity.
  - vm_compute. eauto.
  - vm_compute. eauto.
  - vm_compute. lia.
  - intros d [= <-]. reflexivity.
  - reflexivity.
  - reflexivity.
  - intros [|[|ri]] ls [= <-]; reflexivity.
  - intros [|[|ri]] ls li ln [= <-]; destruct li as [|[|li]]; intros [= <-];
      (split; [reflexivity|]); repeat constructor; vm_compute; eauto.
Defined.

(** X6 on a header line of two tokens. *)
Lemma X6_witness :
  ∃ e,
    read_sph_stream int_of_decimal float_of_decimal
      (text_line "1 11" :: two_knots_body) two_knots
    = (inl e, two_knots) ∧
    (e = IndexError ∨ e = ValueError ∨
     e = AssertionError "Wrong number of 1s in SH header").
Proof.
  apply (proj2 (X6_rejected_header int_of_decimal float_of_decimal
                  (text_line "1 11") two_knots_body two_knots)).
  vm_compute. lia.
Defined.

(** X7 on the two-knot stream followed by one more group: the store at
    knot index 2 raises IndexError. *)
Lemma X7_witness :
  ∃ self',
    read_sph_stream int_of_decimal float_of_decimal
      (two_knots_stream ++ [text_line "0.7"]) two_knots
    = (inl IndexError, self') ∧
    reader_error IndexError ∧
    IndexError ≠ AssertionError "Too many lines!" ∧ IndexError ≠ TypeError.
Proof.
  eexists. split; [vm_compute; reflexivity|].
  eapply (X7_reader_errors int_of_decimal float_of_decimal
            (two_knots_stream ++ [text_line "0.7"]) two_knots IndexError).
  - reflexivity.
  - vm_compute. reflexivity.
Defined.

(** X8 on the group of degree 1 with a second token that is no number. *)
Lemma X8_witness :
  ∃ self1,
    decode float_of_decimal 0 1 0 0 ["0.1"] two_knots = (inr tt, self1) ∧
    data_step float_of_decimal (mk_locals (Some ["1"; "11"; "2"; "11"]) [] 0 1)
      ["0.1"; "abc"; "0.3"] two_knots
    = (inl ValueError, self1).
Proof.
  eexists. split; [vm_compute; reflexivity|].
  eapply (proj2 (X8_non_numeric_token int_of_decimal float_of_decimal
                   (mk_locals (Some ["1"; "11"; "2"; "11"]) [] 0 1)
                   ["0.1"; "abc"; "0.3"] two_knots)
            ["0.1"] "abc" ["0.3"]).
  - reflexivity.
  - reflexivity.
  - simpl. lia.
  - vm_compute. reflexivity.
  - reflexivity.
Defined.

(** X9 with an empty line and a line of spaces after the first data line. *)
Lemma X9_witness :
  read_sph_stream int_of_decimal float_of_decimal
    (two_knots_header :: take 1 two_knots_body
       ++ [text_line EmptyString; text_line "   "] ++ drop 1 two_knots_body)
    two_knots
  = read_sph_stream int_of_decimal float_of_decimal
      (two_knots_header :: take 1 two_knots_body ++ drop 1 two_knots_body)
      two_knots.
Proof.
  apply (X9_blank_lines_in_body int_of_decimal float_of_decimal two_knots_header
           (take 1 two_knots_body) [text_line EmptyString; text_line "   "]
           (drop 1 two_knots_body) two_knots).
  repeat constructor.
Defined.

(** X10 on the two-knot stream, each line broken into one token per
    line. *)
Lemma X10_witness :
  ∃ self',
    read_sph_stream int_of_decimal float_of_decimal two_knots_stream two_knots
    = (inr tt, self') ∧
    read_sph_stream int_of_decimal float_of_decimal
      (two_knots_header :: two_knots_body_fine) two_knots
    = (inr tt, self').
Proof.
  eexists. split; [vm_compute; reflexivity|].
  change two_knots_body_fine with
    (concat [[text_line "0.5"]; text_line <$> ["0.1"; "0.2"; "0.3"];
             [text_line "0.5"]; text_line <$> ["0.1"; "0.2"; "0.3"]]).
  apply (X10_breaking_lines_further int_of_decimal float_of_decimal
           two_knots_header two_knots_body
           [[text_line "0.5"]; text_line <$> ["0.1"; "0.2"; "0.3"];
            [text_line "0.5"]; text_line <$> ["0.1"; "0.2"; "0.3"]]
           two_knots).
  - unfold two_knots_body.
    repeat (constructor; [vm_compute; reflexivity|]). constructor.
  - vm_compute. reflexivity.
Defined.

(** X11 on the two-knot stream. *)
Lemma X11_witness :
  ∃ self',
    read_sph_stream int_of_decimal float_of_decimal
      (two_knots_header :: concat (replicate 2 scenario_knot)) two_knots
    = (inr tt, self') ∧
    read_sph_stream int_of_decimal float_of_decimal
      (two_knots_header :: concat (replicate 2 scenario_knot)) self'
    = (inr tt, self').
Proof.
  eexists. split; [vm_compute; reflexivity|].
  apply (X11_rereading_is_idempotent int_of_decimal float_of_decimal
           two_knots_header (replicate 2 scenario_knot) two_knots
           "1" "11" "2" "11" []).
  - reflexivity.
  - reflexivity.
  - vm_compute. eauto.
  - vm_compute. eauto.
  - vm_compute. lia.
  - intros d [= <-]. reflexivity.
  - reflexivity.
  - reflexivity.
  - intros [|[|ri]] ls [= <-]; reflexivity.
  - intros [|[|ri]] ls li ln [= <-]; destruct li as [|[|li]]; intros [= <-];
      (split; [reflexivity|]); repeat constructor; vm_compute; eauto.
  - vm_compute. reflexivity.
Defined.

(** X12 on the two-knot file with [degree=1], the degree its header
    names. *)
Lemma X12_witness :
  (__init__ int_of_decimal float_of_decimal (Some two_knots_stream) (Some 1%Z)
     (Some [1.0; -1.0]%float) default_inner_radius default_outer_radius).1
  = (__init__ int_of_decimal float_of_decimal (Some two_knots_stream) None
       (Some [1.0; -1.0]%float) default_inner_radius default_outer_radius).1 ∧
  ((__init__ int_of_decimal float_of_decimal (Some two_knots_stream) None
      (Some [1.0; -1.0]%float) default_inner_radius default_outer_radius).1
   = inr tt →
   __init__ int_of_decimal float_of_decimal (Some two_knots_stream) (Some 1%Z)
     (Some [1.0; -1.0]%float) default_inner_radius default_outer_radius
   = __init__ int_of_decimal float_of_decimal (Some two_knots_stream) None
       (Some [1.0; -1.0]%float) default_inner_radius default_outer_radius).
Proof.
  apply (X12_matching_degree_is_redundant int_of_decimal float_of_decimal
           two_knots_header two_knots_body "11" 1%Z (Some [1.0; -1.0]%float)
           default_inner_radius default_outer_radius).
  - reflexivity.
  - reflexivity.
Defined.

(** X13 on the two-knot stream cut inside the last group: the loop ends
    with [ri = 1], [li = 1] and two pending tokens. *)
Lemma X13_witness :
  ∃ self',
    run_lines int_of_decimal float_of_decimal initial_locals
      (two_knots_header :: take 3 two_knots_body ++ [text_line "0.1 0.2"])
      two_knots
    = (inr (mk_locals (Some ["1"; "11"; "2"; "11"]) ["0.1"; "0.2"] 1 1), self') ∧
    1 ≤ length (knots self') ∧
    (1 = 0 ∨ ∃ d, degree self' = Some d ∧ (Z.of_nat 1 ≤ d)%Z) ∧
    (1 = length (knots self') → 1 = 0) ∧
    2 < 1 * 2 + 1.
Proof.
  eexists. split; [vm_compute; reflexivity|].
  eapply (X13_loop_invariant int_of_decimal float_of_decimal two_knots_header
            (take 3 two_knots_body ++ [text_line "0.1 0.2"]) two_knots
            (mk_locals (Some ["1"; "11"; "2"; "11"]) ["0.1"; "0.2"] 1 1)).
  - reflexivity.
  - vm_compute. reflexivity.
Defined.
